(** * Random-walk grid demo: a shallow embedding of [components/grid/index.tsx]

    The React component [Grid] keeps its state in hooks; here the hooks
    become the fields of one record [GridState], every event handler and
    effect of the component becomes a function on that record, and the
    component's behaviour is the set of event sequences run from
    [initialState]. *)

From Stdlib Require Import ZArith String Ascii Bool Lia Arith List.
From Stdlib Require Import QArith Qround.
From Stdlib Require Import DecimalString DecimalZ.
Import ListNotations.

Local Open Scope Z_scope.

(** ** Data model *)

(** [interface GridIndices]: both indices are [bigint]s. *)
Record GridIndices : Type := mkGridIndices {
  widthIntervalIndex : Z;
  heightIntervalIndex : Z
}.

Module GridEntityType.
Inductive t : Type := GridWalker | GridPoint.
End GridEntityType.

(** [interface GridWalker] *)
Record GridWalker : Type := mkGridWalker {
  onGridAt : GridIndices;
  walkerColor : string;
  finishedWalk : bool
}.

Module StepDir.
Inductive t : Type := Up | Down | Left | Right.

Definition eqb (a b : t) : bool :=
  match a, b with
  | Up, Up | Down, Down | Left, Left | Right, Right => true
  | _, _ => false
  end.
End StepDir.

(** [interface GridWalkerNextStep] *)
Record GridWalkerNextStep : Type := mkGridWalkerNextStep {
  nextStep : GridIndices;
  nextStepDir : StepDir.t
}.

(** [interface GridWalkerStepInfo]; the optional timestamp is absent
    ([None]) while the step is being animated. *)
Record GridWalkerStepInfo : Type := mkGridWalkerStepInfo {
  stepFrom : GridIndices;
  stepTo : GridIndices;
  stepDir : StepDir.t;
  lineColor : string;
  stepFinishedAnimatingAt : option Z
}.

Module InstructionsState.
Inductive t : Type :=
| NoExtantWalker
| AtLeastOneExtantWalker
| GridWalkerRemoval
| Running
| Paused.

(** The numeric value TypeScript gives each member of the enum; the
    component compares states with [>=]. *)
Definition toNumber (s : t) : Z :=
  match s with
  | NoExtantWalker => 0
  | AtLeastOneExtantWalker => 1
  | GridWalkerRemoval => 2
  | Running => 3
  | Paused => 4
  end.

Definition eqb (a b : t) : bool := toNumber a =? toNumber b.
End InstructionsState.

(** ** Value equality of the records ([===] on bigints and strings,
       structural equality on the objects held by the collections) *)

Definition GridIndices_eqb (a b : GridIndices) : bool :=
  (widthIntervalIndex a =? widthIntervalIndex b)
  && (heightIntervalIndex a =? heightIntervalIndex b).

Definition GridWalker_eqb (a b : GridWalker) : bool :=
  GridIndices_eqb (onGridAt a) (onGridAt b)
  && String.eqb (walkerColor a) (walkerColor b)
  && Bool.eqb (finishedWalk a) (finishedWalk b).

Definition option_Z_eqb (a b : option Z) : bool :=
  match a, b with
  | None, None => true
  | Some x, Some y => x =? y
  | _, _ => false
  end.

Definition GridWalkerStepInfo_eqb (a b : GridWalkerStepInfo) : bool :=
  GridIndices_eqb (stepFrom a) (stepFrom b)
  && GridIndices_eqb (stepTo a) (stepTo b)
  && StepDir.eqb (stepDir a) (stepDir b)
  && String.eqb (lineColor a) (lineColor b)
  && option_Z_eqb (stepFinishedAnimatingAt a) (stepFinishedAnimatingAt b).

(** ** The collections

    The registry and the step history are [VECollection]s, updated through
    the hook [useVECollection]; the packages [vecollection] and
    [usevecollection] are dependencies whose code is not in the
    repository.  The spec describes them as ordered collections, here
    lists in insertion order. *)
Module VECollection.
Section Ops.
Context {T : Type}.

(** Modelled from the spec: [addToCollection] of [usevecollection] is
    missing; "add: inserts; no uniqueness check beyond caller discipline". *)
Definition addToCollection (x : T) (c : list T) : list T := c ++ [x].

(** Modelled from the spec: [removeFirstFoundFromCollection] of
    [usevecollection] is missing; "removeMatching(predicate): removes the
    first walker satisfying predicate. No-op, not an error, if none match". *)
Fixpoint removeFirstFoundFromCollection (p : T -> bool) (c : list T) : list T :=
  match c with
  | [] => []
  | y :: c' => if p y then c' else y :: removeFirstFoundFromCollection p c'
  end.

(** Modelled from the spec: [removeFromCollection] of [usevecollection] is
    missing; the spec lists it under removeMatching, "used to remove the
    walker that just stepped from cell X with color C": the first element
    equal by value to the one given is removed. *)
Definition removeFromCollection (eqb : T -> T -> bool) (x : T) (c : list T) : list T :=
  removeFirstFoundFromCollection (eqb x) c.

(** Modelled from the spec: [clearCollection] of [usevecollection] is
    missing; reset must "clear registry, step history". *)
Definition clearCollection (c : list T) : list T := [].

(** Modelled from the spec: [returnFirstOccurrenceIfFound] of
    [vecollection] is missing; "findMatching(predicate): returns the first
    matching walker or none". *)
Definition returnFirstOccurrenceIfFound (p : T -> bool) (c : list T) : option T :=
  find p c.

(** Modelled from the spec: [size] of [vecollection] is missing; the
    number of elements held. *)
Definition size (c : list T) : Z := Z.of_nat (List.length c).

(** Modelled from the spec: [isNonEmpty] of [vecollection] is missing. *)
Definition isNonEmpty (c : list T) : bool :=
  match c with [] => false | _ :: _ => true end.
End Ops.
End VECollection.
Import VECollection.

(** JavaScript truthiness of an optional object. *)
Definition truthy {T : Type} (o : option T) : bool :=
  match o with Some _ => true | None => false end.

(** ** Utility functions for bigint operations and the grid constants *)

Definition bigIntDivisionResult (numerator denominator : Z) : Z :=
  numerator / denominator.

Definition bigIntSubtractionResult (firstTerm secondTerm : Z) : Z :=
  firstTerm + - secondTerm.

Definition bigIntAdditionResult (firstTerm secondTerm : Z) : Z :=
  firstTerm + secondTerm.

Definition zeroBigNumber : Z := 0.
Definition oneBigNumber : Z := 1.

Definition width : Z := 1000.
Definition widthInterval : Z := 50.
Definition numVerticalLines : Z := bigIntDivisionResult width widthInterval.

Definition height : Z := 500.
Definition heightInterval : Z := 50.
Definition numHorizontalLines : Z := bigIntDivisionResult height heightInterval.

(** ** [constructLineFromToKey]

    A template literal prints a bigint in decimal, with a leading [-] when
    it is negative. *)
Definition bigIntToString (z : Z) : string :=
  NilEmpty.string_of_int (Z.to_int z).

Definition constructLineFromToKey (lineFrom lineTo : GridIndices) : string :=
  (bigIntToString (widthIntervalIndex lineFrom) ++ "_"
   ++ bigIntToString (heightIntervalIndex lineFrom) ++ "_"
   ++ bigIntToString (widthIntervalIndex lineTo) ++ "_"
   ++ bigIntToString (heightIntervalIndex lineTo))%string.

(** ** The step selector *)

(** [array[index]] for an index computed as a number: [undefined] outside
    the array. *)
Definition arrayAt {T : Type} (a : list T) (index : Z) : option T :=
  if index <? 0 then None else nth_error a (Z.to_nat index).

(** [Math.floor(Math.random() * n)]: the draw of [Math.random()] is a
    parameter, a number in [[0, 1)]. *)
Definition randomIndex (random : Q) (n : nat) : Z :=
  Qfloor (random * inject_Z (Z.of_nat n)).

Definition possibleSteps (cell : GridIndices) : list GridWalkerNextStep :=
  let w := widthIntervalIndex cell in
  let h := heightIntervalIndex cell in
  let possibleLeftStep :=
    mkGridWalkerNextStep (mkGridIndices (bigIntSubtractionResult w oneBigNumber) h) StepDir.Left in
  let possibleRightStep :=
    mkGridWalkerNextStep (mkGridIndices (bigIntAdditionResult w oneBigNumber) h) StepDir.Right in
  let possibleUpStep :=
    mkGridWalkerNextStep (mkGridIndices w (bigIntSubtractionResult h oneBigNumber)) StepDir.Up in
  let possibleDownStep :=
    mkGridWalkerNextStep (mkGridIndices w (bigIntAdditionResult h oneBigNumber)) StepDir.Down in
  [possibleLeftStep; possibleRightStep; possibleUpStep; possibleDownStep].

(** The predicate passed to [possibleSteps.filter]. *)
Definition isPossibleNextStep (gridStepsTakenSoFar : list GridWalkerStepInfo)
    (stepperColor : string) (candidate : GridWalkerNextStep) : bool :=
  let w := widthIntervalIndex (nextStep candidate) in
  let h := heightIntervalIndex (nextStep candidate) in
  let wouldBePreviousStep :=
    returnFirstOccurrenceIfFound
      (fun s =>
         (w =? widthIntervalIndex (stepFrom s))
         && (h =? heightIntervalIndex (stepFrom s))
         && String.eqb (lineColor s) stepperColor)
      gridStepsTakenSoFar in
  negb (truthy wouldBePreviousStep)
  && (zeroBigNumber <=? w)
  && (w <? numVerticalLines)
  && (zeroBigNumber <=? h)
  && (h <? numHorizontalLines).

Definition possibleNextSteps (gridStepsTakenSoFar : list GridWalkerStepInfo)
    (cell : GridIndices) (stepperColor : string) : list GridWalkerNextStep :=
  filter (isPossibleNextStep gridStepsTakenSoFar stepperColor) (possibleSteps cell).

Definition chooseNextStep (gridStepsTakenSoFar : list GridWalkerStepInfo) (random : Q)
    (cell : GridIndices) (stepperColor : string) : option GridWalkerNextStep :=
  let candidates := possibleNextSteps gridStepsTakenSoFar cell stepperColor in
  arrayAt candidates (randomIndex random (length candidates)).

Definition walkerStep (gridStepsTakenSoFar : list GridWalkerStepInfo) (random : Q)
    (gridWalker : GridWalker) : option GridWalkerStepInfo :=
  let fromIndices := onGridAt gridWalker in
  match chooseNextStep gridStepsTakenSoFar random fromIndices (walkerColor gridWalker) with
  | Some nextStepToTake =>
      Some (mkGridWalkerStepInfo fromIndices (nextStep nextStepToTake)
              (nextStepDir nextStepToTake) (walkerColor gridWalker) None)
  | None => None
  end.

(** ** The component state

    One field per hook of [Grid].  [activeTweens] is the state of the
    animation library: the tweens that [gsap.to] has created and whose
    [onComplete] has not fired yet, each remembered by the step record its
    callback closes over.  Nothing in the component ever kills a tween. *)
Record GridState : Type := mkGridState {
  instructionsState : InstructionsState.t;
  gridWalkers : list GridWalker;
  latestWalkerAdded : option GridWalker;
  gridStepsTakenSoFar : list GridWalkerStepInfo;
  walkersTakingNextStep : list GridWalker;
  walkersFinishingSteps : list GridWalkerStepInfo;
  gridEditFocus : option GridIndices;
  stepping : bool;
  activeTweens : list GridWalkerStepInfo
}.

Definition initialState : GridState :=
  mkGridState InstructionsState.NoExtantWalker [] None [] [] [] None false [].

(** The state setters of the hooks. *)
Definition setInstructionsState (v : InstructionsState.t) (s : GridState) : GridState :=
  mkGridState v (gridWalkers s) (latestWalkerAdded s) (gridStepsTakenSoFar s)
    (walkersTakingNextStep s) (walkersFinishingSteps s) (gridEditFocus s) (stepping s)
    (activeTweens s).

Definition updateGridWalkers (f : list GridWalker -> list GridWalker) (s : GridState) : GridState :=
  mkGridState (instructionsState s) (f (gridWalkers s)) (latestWalkerAdded s)
    (gridStepsTakenSoFar s) (walkersTakingNextStep s) (walkersFinishingSteps s)
    (gridEditFocus s) (stepping s) (activeTweens s).

Definition setLatestWalkerAdded (v : option GridWalker) (s : GridState) : GridState :=
  mkGridState (instructionsState s) (gridWalkers s) v (gridStepsTakenSoFar s)
    (walkersTakingNextStep s) (walkersFinishingSteps s) (gridEditFocus s) (stepping s)
    (activeTweens s).

Definition updateGridStepsTaken (f : list GridWalkerStepInfo -> list GridWalkerStepInfo)
    (s : GridState) : GridState :=
  mkGridState (instructionsState s) (gridWalkers s) (latestWalkerAdded s)
    (f (gridStepsTakenSoFar s)) (walkersTakingNextStep s) (walkersFinishingSteps s)
    (gridEditFocus s) (stepping s) (activeTweens s).

Definition updateWalkersTakingNextStep (f : list GridWalker -> list GridWalker)
    (s : GridState) : GridState :=
  mkGridState (instructionsState s) (gridWalkers s) (latestWalkerAdded s)
    (gridStepsTakenSoFar s) (f (walkersTakingNextStep s)) (walkersFinishingSteps s)
    (gridEditFocus s) (stepping s) (activeTweens s).

Definition updateWalkersFinishingSteps
    (f : list GridWalkerStepInfo -> list GridWalkerStepInfo) (s : GridState) : GridState :=
  mkGridState (instructionsState s) (gridWalkers s) (latestWalkerAdded s)
    (gridStepsTakenSoFar s) (walkersTakingNextStep s) (f (walkersFinishingSteps s))
    (gridEditFocus s) (stepping s) (activeTweens s).

Definition setGridEditFocus (v : option GridIndices) (s : GridState) : GridState :=
  mkGridState (instructionsState s) (gridWalkers s) (latestWalkerAdded s)
    (gridStepsTakenSoFar s) (walkersTakingNextStep s) (walkersFinishingSteps s) v
    (stepping s) (activeTweens s).

Definition setStepping (v : bool) (s : GridState) : GridState :=
  mkGridState (instructionsState s) (gridWalkers s) (latestWalkerAdded s)
    (gridStepsTakenSoFar s) (walkersTakingNextStep s) (walkersFinishingSteps s)
    (gridEditFocus s) v (activeTweens s).

Definition updateActiveTweens (f : list GridWalkerStepInfo -> list GridWalkerStepInfo)
    (s : GridState) : GridState :=
  mkGridState (instructionsState s) (gridWalkers s) (latestWalkerAdded s)
    (gridStepsTakenSoFar s) (walkersTakingNextStep s) (walkersFinishingSteps s)
    (gridEditFocus s) (stepping s) (f (activeTweens s)).

Definition addGridWalker w := updateGridWalkers (addToCollection w).
Definition removeGridWalker w := updateGridWalkers (removeFromCollection GridWalker_eqb w).
Definition removeFirstMatchingGridWalker p := updateGridWalkers (removeFirstFoundFromCollection p).
Definition clearGridWalkers := updateGridWalkers clearCollection.

Definition addGridStepTaken r := updateGridStepsTaken (addToCollection r).
Definition removeGridStepTaken r :=
  updateGridStepsTaken (removeFromCollection GridWalkerStepInfo_eqb r).
Definition removeFirstMatchingGridStep p :=
  updateGridStepsTaken (removeFirstFoundFromCollection p).
Definition clearGridWalkerSteps := updateGridStepsTaken clearCollection.

(** The two queues are kept by the hook [useQueue] of a dependency:
    [add] appends an element, [clear] empties the queue. *)
Definition addWalkerTakingNextStep w := updateWalkersTakingNextStep (fun q => q ++ [w]).
Definition clearWalkersTakingNextStep := updateWalkersTakingNextStep (fun _ => []).
Definition addWalkerFinishingStep r := updateWalkersFinishingSteps (fun q => q ++ [r]).
Definition clearWalkersFinishingSteps := updateWalkersFinishingSteps (fun _ => []).

(** ** The animation callback [onComplete] of the tween of [stepToAnimate];
       [now] is the value of [Date.now()]. *)
Definition onComplete (stepToAnimate : GridWalkerStepInfo) (now : Z) (s : GridState)
    : GridState :=
  let s := removeGridStepTaken stepToAnimate s in
  let walkerStepAfterAnimation :=
    mkGridWalkerStepInfo (stepFrom stepToAnimate) (stepTo stepToAnimate)
      (stepDir stepToAnimate) (lineColor stepToAnimate) (Some now) in
  let stepFromToKey :=
    constructLineFromToKey (stepFrom stepToAnimate) (stepTo stepToAnimate) in
  let stepToFromKey :=
    constructLineFromToKey (stepTo stepToAnimate) (stepFrom stepToAnimate) in
  let s :=
    removeFirstMatchingGridStep
      (fun r => String.eqb (constructLineFromToKey (stepFrom r) (stepTo r)) stepFromToKey) s in
  let s :=
    removeFirstMatchingGridStep
      (fun r => String.eqb (constructLineFromToKey (stepTo r) (stepFrom r)) stepToFromKey) s in
  addGridStepTaken walkerStepAfterAnimation s.

(** ** The first effect (dependencies [gridWalkers], [gridStepsTakenSoFar],
       [instructionsState]): the part that changes state *)

(** ["stepFinishedAnimatingAt" in stepTaken] *)
Definition hasFinishedAnimating (stepTaken : GridWalkerStepInfo) : bool :=
  truthy (stepFinishedAnimatingAt stepTaken).

(** The lookup [walkerStillAtFrom]. *)
Definition walkerStillAtFrom (walkers : list GridWalker)
    (stepAlreadyAnimated : GridWalkerStepInfo) : option GridWalker :=
  returnFirstOccurrenceIfFound
    (fun w =>
       (widthIntervalIndex (stepFrom stepAlreadyAnimated) =? widthIntervalIndex (onGridAt w))
       && (heightIntervalIndex (stepFrom stepAlreadyAnimated) =? heightIntervalIndex (onGridAt w))
       && String.eqb (lineColor stepAlreadyAnimated) (walkerColor w))
    walkers.

(** [stepsToAnimate.forEach]: a tween is created only while stepping. *)
Fixpoint animateSteps (isStepping : bool) (stepsToAnimate : list GridWalkerStepInfo)
    (s : GridState) : GridState :=
  match stepsToAnimate with
  | [] => s
  | stepToAnimate :: rest =>
      let s' :=
        if isStepping then updateActiveTweens (fun ts => ts ++ [stepToAnimate]) s else s in
      animateSteps isStepping rest s'
  end.

(** [stepsFinishedAnimating.forEach]; [walkers] and [isStepping] are the
    values the effect closed over. *)
Fixpoint queueFinishedSteps (walkers : list GridWalker) (isStepping : bool)
    (stepsFinishedAnimating : list GridWalkerStepInfo) (s : GridState) : GridState :=
  match stepsFinishedAnimating with
  | [] => s
  | stepAlreadyAnimated :: rest =>
      let s' :=
        if truthy (walkerStillAtFrom walkers stepAlreadyAnimated) && isStepping
        then addWalkerFinishingStep stepAlreadyAnimated s
        else s in
      queueFinishedSteps walkers isStepping rest s'
  end.

Definition renderEffect (s : GridState) : GridState :=
  let stepsToAnimate :=
    filter (fun stepTaken => negb (hasFinishedAnimating stepTaken)) (gridStepsTakenSoFar s) in
  let stepsFinishedAnimating := filter hasFinishedAnimating (gridStepsTakenSoFar s) in
  queueFinishedSteps (gridWalkers s) (stepping s) stepsFinishedAnimating
    (animateSteps (stepping s) stepsToAnimate s).

(** ** Clicks *)

(** What the effect attaches to the circle drawn at [point]: a walker
    when the registry has one there, a free point otherwise. *)
Definition pointEntityType (walkers : list GridWalker) (point : GridIndices)
    : GridEntityType.t :=
  let maybeWalker :=
    returnFirstOccurrenceIfFound
      (fun w =>
         (widthIntervalIndex point =? widthIntervalIndex (onGridAt w))
         && (heightIntervalIndex point =? heightIntervalIndex (onGridAt w)))
      walkers in
  if truthy maybeWalker then GridEntityType.GridWalker else GridEntityType.GridPoint.

(** [randomColor] is the value returned by [randomColor()]. *)
Definition handleClickingOnPointShape (shapeEntityType : GridEntityType.t)
    (pointClickedOn : GridIndices) (randomColor : string) (s : GridState) : GridState :=
  let st := instructionsState s in
  let canUpdateWalkerState :=
    InstructionsState.eqb st InstructionsState.NoExtantWalker
    || InstructionsState.eqb st InstructionsState.AtLeastOneExtantWalker
    || InstructionsState.eqb st InstructionsState.GridWalkerRemoval in
  if canUpdateWalkerState then
    match shapeEntityType with
    | GridEntityType.GridWalker =>
        let clickIsAfterRemovalInstructions :=
          InstructionsState.toNumber InstructionsState.GridWalkerRemoval
          <=? InstructionsState.toNumber st in
        if clickIsAfterRemovalInstructions then
          match gridEditFocus s with
          | Some focus =>
              if (widthIntervalIndex focus =? widthIntervalIndex pointClickedOn)
                 && (heightIntervalIndex focus =? heightIntervalIndex pointClickedOn)
              then
                let findPreviousGridWalker := fun other : GridWalker =>
                  (widthIntervalIndex pointClickedOn =? widthIntervalIndex (onGridAt other))
                  && (heightIntervalIndex pointClickedOn =? heightIntervalIndex (onGridAt other)) in
                let instructionsStateAfterRemoval :=
                  if size (gridWalkers s) =? 1
                  then InstructionsState.NoExtantWalker
                  else InstructionsState.AtLeastOneExtantWalker in
                setInstructionsState instructionsStateAfterRemoval
                  (setGridEditFocus None
                     (removeFirstMatchingGridWalker findPreviousGridWalker s))
              else s
          | None => s
          end
        else
          setGridEditFocus (Some pointClickedOn)
            (setInstructionsState InstructionsState.GridWalkerRemoval s)
    | GridEntityType.GridPoint =>
        setGridEditFocus (Some pointClickedOn)
          (setLatestWalkerAdded (Some (mkGridWalker pointClickedOn randomColor false)) s)
    end
  else s.

(** The effect on [latestWalkerAdded]. *)
Definition latestWalkerAddedEffect (s : GridState) : GridState :=
  match latestWalkerAdded s with
  | Some latest =>
      let s1 :=
        removeFirstMatchingGridWalker
          (fun other =>
             (widthIntervalIndex (onGridAt latest) =? widthIntervalIndex (onGridAt other))
             && (heightIntervalIndex (onGridAt latest) =? heightIntervalIndex (onGridAt other)))
          s in
      let s2 := setLatestWalkerAdded None (addGridWalker latest s1) in
      if InstructionsState.eqb (instructionsState s) InstructionsState.NoExtantWalker
      then setInstructionsState InstructionsState.AtLeastOneExtantWalker s2
      else s2
  | None => s
  end.

(** ** The keyboard *)

Definition toLowerCaseAscii (c : ascii) : ascii :=
  let n := nat_of_ascii c in
  if ((65 <=? n) && (n <=? 90))%nat then ascii_of_nat (n + 32) else c.

(** [key.toLowerCase()]; only the letters A to Z matter for the keys the
    listener tells apart. *)
Fixpoint toLowerCase (key : string) : string :=
  match key with
  | EmptyString => EmptyString
  | String c rest => String (toLowerCaseAscii c) (toLowerCase rest)
  end.

(** [gridWalkers.forEach((gridWalker) => addWalkerTakingNextStep(gridWalker))] *)
Fixpoint queueEveryWalker (walkers : list GridWalker) (s : GridState) : GridState :=
  match walkers with
  | [] => s
  | gridWalker :: rest => queueEveryWalker rest (addWalkerTakingNextStep gridWalker s)
  end.

Definition keyDownListener (key : string) (s : GridState) : GridState :=
  let st := instructionsState s in
  let atLeastOneExtantWalker := isNonEmpty (gridWalkers s) in
  let k := toLowerCase key in
  if String.eqb k "s" then
    if InstructionsState.eqb st InstructionsState.AtLeastOneExtantWalker then
      setInstructionsState InstructionsState.Running
        (queueEveryWalker (gridWalkers s) (setStepping true s))
    else s
  else if String.eqb k "p" then
    if InstructionsState.eqb st InstructionsState.Running then
      setInstructionsState InstructionsState.Paused (setStepping false s)
    else s
  else if String.eqb k "r" then
    if InstructionsState.eqb st InstructionsState.Paused then
      setInstructionsState InstructionsState.Running (setStepping true s)
    else s
  else if String.eqb k "e" then
    if negb (InstructionsState.eqb st InstructionsState.NoExtantWalker)
       && negb (InstructionsState.eqb st InstructionsState.GridWalkerRemoval) then
      setInstructionsState InstructionsState.NoExtantWalker
        (clearWalkersFinishingSteps
           (clearWalkersTakingNextStep
              (clearGridWalkerSteps
                 (clearGridWalkers
                    (setGridEditFocus None s)))))
    else s
  else if String.eqb k "escape" then
    if InstructionsState.eqb st InstructionsState.GridWalkerRemoval then
      setInstructionsState
        (if atLeastOneExtantWalker
         then InstructionsState.AtLeastOneExtantWalker
         else InstructionsState.NoExtantWalker) s
    else s
  else s.

(** ** The effects on the two queues *)

(** The loop [for (const walkerToUpdate of walkersTakingNextStep)].
    [walkerStep] reads the history the effect closed over ([history]);
    each call of [chooseNextStep] consumes one draw of [Math.random()],
    the head of [randoms] (0 once the list is used up). *)
Fixpoint takeNextSteps (history : list GridWalkerStepInfo) (randoms : list Q)
    (queue : list GridWalker) (s : GridState) : GridState :=
  match queue with
  | [] => s
  | walkerToUpdate :: rest =>
      let s' :=
        match walkerStep history (hd 0%Q randoms) walkerToUpdate with
        | Some walkerNextStep => addGridStepTaken walkerNextStep s
        | None =>
            let walkerNoMoreSteps :=
              mkGridWalker (onGridAt walkerToUpdate) (walkerColor walkerToUpdate) true in
            addGridWalker walkerNoMoreSteps (removeGridWalker walkerToUpdate s)
        end in
      takeNextSteps history (tl randoms) rest s'
  end.

Definition walkersTakingNextStepEffect (randoms : list Q) (s : GridState) : GridState :=
  if (0 <? List.length (walkersTakingNextStep s))%nat then
    clearWalkersTakingNextStep
      (takeNextSteps (gridStepsTakenSoFar s) randoms (walkersTakingNextStep s) s)
  else s.

(** The loop [for (const walkerFinishingStep of walkersFinishingSteps)]. *)
Fixpoint finishSteps (queue : list GridWalkerStepInfo) (s : GridState) : GridState :=
  match queue with
  | [] => s
  | walkerFinishingStep :: rest =>
      let s1 :=
        removeGridWalker
          (mkGridWalker (stepFrom walkerFinishingStep) (lineColor walkerFinishingStep) false) s in
      let walkerAfterAnimation :=
        mkGridWalker (stepTo walkerFinishingStep) (lineColor walkerFinishingStep) false in
      finishSteps rest
        (addWalkerTakingNextStep walkerAfterAnimation (addGridWalker walkerAfterAnimation s1))
  end.

Definition walkersFinishingStepsEffect (s : GridState) : GridState :=
  if (0 <? List.length (walkersFinishingSteps s))%nat then
    clearWalkersFinishingSteps (finishSteps (walkersFinishingSteps s) s)
  else s.

(** ** Events

    Everything that happens to the component is one of these.  A click is
    delivered to the handler of the circle at that point, and React runs
    the effect on [latestWalkerAdded] before the next event.  The other
    effects and the completions of the tweens may come in any order. *)
Inductive Event : Type :=
| Click (pointClickedOn : GridIndices) (randomColor : string)
| KeyDown (key : string)
| AnimationComplete (tween : nat) (now : Z)
| Render
| WalkersTakingNextStep (randoms : list Q)
| WalkersFinishingSteps.

Fixpoint removeNth {T : Type} (n : nat) (l : list T) : list T :=
  match n, l with
  | _, [] => []
  | O, _ :: l' => l'
  | S n', x :: l' => x :: removeNth n' l'
  end.

Definition step (e : Event) (s : GridState) : GridState :=
  match e with
  | Click pointClickedOn randomColor =>
      latestWalkerAddedEffect
        (handleClickingOnPointShape (pointEntityType (gridWalkers s) pointClickedOn)
           pointClickedOn randomColor s)
  | KeyDown key => keyDownListener key s
  | AnimationComplete tween now =>
      match nth_error (activeTweens s) tween with
      | Some stepToAnimate =>
          onComplete stepToAnimate now (updateActiveTweens (removeNth tween) s)
      | None => s
      end
  | Render => renderEffect s
  | WalkersTakingNextStep randoms => walkersTakingNextStepEffect randoms s
  | WalkersFinishingSteps => walkersFinishingStepsEffect s
  end.

Definition run (events : list Event) (s : GridState) : GridState :=
  fold_left (fun s e => step e s) events s.

(** ** Vocabulary of the specification *)

(** A cell inside [[0, numColumns) x [0, numRows)]. *)
Definition inGridBounds (c : GridIndices) : Prop :=
  0 <= widthIntervalIndex c < numVerticalLines
  /\ 0 <= heightIntervalIndex c < numHorizontalLines.


(** A step record exists whose from-cell is [c] and whose colour is [color]. *)
Definition departedFrom (history : list GridWalkerStepInfo) (color : string)
    (c : GridIndices) : Prop :=
  exists r, In r history /\ stepFrom r = c /\ lineColor r = color.


(** The direction of a record determines its to-cell from its from-cell. *)
Definition directionConsistent (r : GridWalkerStepInfo) : Prop :=
  match stepDir r with
  | StepDir.Right =>
      widthIntervalIndex (stepTo r) = widthIntervalIndex (stepFrom r) + 1
      /\ heightIntervalIndex (stepTo r) = heightIntervalIndex (stepFrom r)
  | StepDir.Left =>
      widthIntervalIndex (stepTo r) = widthIntervalIndex (stepFrom r) - 1
      /\ heightIntervalIndex (stepTo r) = heightIntervalIndex (stepFrom r)
  | StepDir.Up =>
      widthIntervalIndex (stepTo r) = widthIntervalIndex (stepFrom r)
      /\ heightIntervalIndex (stepTo r) = heightIntervalIndex (stepFrom r) - 1
  | StepDir.Down =>
      widthIntervalIndex (stepTo r) = widthIntervalIndex (stepFrom r)
      /\ heightIntervalIndex (stepTo r) = heightIntervalIndex (stepFrom r) + 1
  end.

(** The walkers a first-match lookup for [cell] can return. *)
Definition walkersAt (cell : GridIndices) (walkers : list GridWalker) : list GridWalker :=
  filter (fun w => GridIndices_eqb cell (onGridAt w)) walkers.

(** The run has started and has not been reset. *)
Definition inRun (s : GridState) : Prop :=
  instructionsState s = InstructionsState.Running
  \/ instructionsState s = InstructionsState.Paused.

Definition isKey (name : string) (e : Event) : Prop :=
  exists key, e = KeyDown key /\ toLowerCase key = name.

(** The record [onComplete] adds for [r]: [r] with its time of completion. *)
Definition completedAt (r : GridWalkerStepInfo) (now : Z) : GridWalkerStepInfo :=
  mkGridWalkerStepInfo (stepFrom r) (stepTo r) (stepDir r) (lineColor r) (Some now).

(** ** Scenarios

    Each list is a sequence of events in the order React delivers them:
    after a handler, the effects whose dependencies changed. *)

(** One walker at (2,2) starts, steps right, and the run is paused while
    the tween of that step is running. *)
Definition pausedMidFlight : list Event :=
  [ Click (mkGridIndices 2 2) "c"; KeyDown "s"; Render;
    WalkersTakingNextStep [1 # 4]; Render;
    KeyDown "p"; Render ].


(** Two walkers, at (0,0) and (2,0), both step onto (1,0). *)
Definition twoWalkersMeet : list Event :=
  [ Click (mkGridIndices 0 0) "a"; Click (mkGridIndices 2 0) "b";
    KeyDown "s"; Render; WalkersTakingNextStep [0; 0]%Q; Render;
    AnimationComplete 0 1; AnimationComplete 0 2; Render;
    WalkersFinishingSteps ].

(** Two neighbours, at (0,0) and (1,0), swap places; the tween of the
    first walker completes, then the tween of the second. *)
Definition twoWalkersSwap : list Event :=
  [ Click (mkGridIndices 0 0) "a"; Click (mkGridIndices 1 0) "b";
    KeyDown "s"; Render; WalkersTakingNextStep [0; 0]%Q; Render;
    AnimationComplete 0 1 ].


(** One walker starts at (0,1), steps right, up and left, and has no
    legal step left at (0,0). *)
Definition walkerCornered : list Event :=
  [ Click (mkGridIndices 0 1) "c"; KeyDown "s"; Render;
    WalkersTakingNextStep [0%Q]; Render;
    AnimationComplete 0 1; Render; WalkersFinishingSteps; Render;
    WalkersTakingNextStep [1 # 2]; Render;
    AnimationComplete 0 2; Render; WalkersFinishingSteps; Render;
    WalkersTakingNextStep [0%Q]; Render;
    AnimationComplete 0 3; Render; WalkersFinishingSteps; Render;
    WalkersTakingNextStep [0%Q]; Render ].

(** Two walkers are placed, the second one is selected for removal. *)
Definition removalPending : list Event :=
  [ Click (mkGridIndices 2 2) "c"; Render; Click (mkGridIndices 4 4) "d"; Render;
    Click (mkGridIndices 4 4) "e"; Render ].

(** ** Invariants used in the proofs *)

(** The records the component holds: the history, the queue of finished
    steps and the records the running tweens will complete. *)
Definition wellFormedRecords (s : GridState) : Prop :=
  Forall directionConsistent (gridStepsTakenSoFar s)
  /\ Forall directionConsistent (walkersFinishingSteps s)
  /\ Forall directionConsistent (activeTweens s).

(** In every reachable state the stepping flag agrees with Running and
    Paused, and no added walker is waiting for its effect. *)
Definition lifecycleInvariant (s : GridState) : Prop :=
  latestWalkerAdded s = None
  /\ (instructionsState s = InstructionsState.Running -> stepping s = true)
  /\ (instructionsState s = InstructionsState.Paused -> stepping s = false).

(** Before the first start: nothing recorded, nothing queued, and no two
    walkers on one cell. *)
Definition editInvariant (s : GridState) : Prop :=
  latestWalkerAdded s = None
  /\ ~ inRun s
  /\ gridStepsTakenSoFar s = []
  /\ activeTweens s = []
  /\ walkersTakingNextStep s = []
  /\ walkersFinishingSteps s = []
  /\ forall cell, (List.length (walkersAt cell (gridWalkers s)) <= 1)%nat.


(** The characters of a printed bigint: none is the separator of the keys. *)
Fixpoint noSeparator (s : string) : Prop :=
  match s with
  | EmptyString => True
  | String c rest => c <> "_"%char /\ noSeparator rest
  end.

(** ** The grid of points and the count of active walkers *)

(** [mapToArrayNTimes]: [rangeIterator(0n, n, {excludeEnd: true})], of a
    dependency, enumerates 0, 1, ..., n - 1; the component calls it with
    the two grid dimensions only. *)
Definition mapToArrayNTimes {T : Type} (n : Z) (mapFn : Z -> T) : list T :=
  map (fun i => mapFn (Z.of_nat i)) (seq 0 (Z.to_nat n)).

Definition widthIntervals : list Z :=
  mapToArrayNTimes numVerticalLines (fun i => widthInterval * i).

Definition heightIntervals : list Z :=
  mapToArrayNTimes numHorizontalLines (fun i => heightInterval * i).

(** [interface GridPoint].  [Number(x)] of an array element is the element
    as a number, or NaN ([None]) when the index is outside the array.  The
    scaled positions are floating-point numbers of a type [Num] the
    embedding does not look into. *)
Record GridPoint (Num : Type) : Type := mkGridPoint {
  pointX : option Z;
  pointY : option Z;
  scaledPointX : option Num;
  scaledPointY : option Num;
  pointIndices : GridIndices
}.
Arguments mkGridPoint {Num}.
Arguments pointX {Num}.
Arguments pointY {Num}.
Arguments scaledPointX {Num}.
Arguments scaledPointY {Num}.
Arguments pointIndices {Num}.

Section GridPoints.
Context {Num : Type}.

(** The floating-point expressions
    [(Number(i) * verticalLineGapProportion * bigIntToNumber(baseWidth)) + canvasLineXYOffset]
    and its counterpart for the height, as functions of [i]. *)
Variable scaledWidthAt : Z -> Num.
Variable scaledHeightAt : Z -> Num.

Definition scaledWidthIntervals : list Num :=
  mapToArrayNTimes numVerticalLines scaledWidthAt.

Definition scaledHeightIntervals : list Num :=
  mapToArrayNTimes numHorizontalLines scaledHeightAt.

Definition constrainByWidth (widthIndex : Z) : list (GridPoint Num) :=
  mapToArrayNTimes numHorizontalLines
    (fun heightIndex =>
       let heightIndexNum := heightIndex in
       mkGridPoint
         (arrayAt widthIntervals widthIndex)
         (arrayAt heightIntervals heightIndexNum)
         (arrayAt scaledWidthIntervals widthIndex)
         (arrayAt scaledHeightIntervals heightIndexNum)
         (mkGridIndices widthIndex heightIndex)).

Definition constrainByHeight (heightIndex : Z) : list (GridPoint Num) :=
  mapToArrayNTimes numVerticalLines
    (fun widthIndex =>
       let widthIndexNum := widthIndex in
       mkGridPoint
         (arrayAt widthIntervals widthIndexNum)
         (arrayAt heightIntervals heightIndex)
         (arrayAt scaledWidthIntervals widthIndexNum)
         (arrayAt scaledHeightIntervals heightIndex)
         (mkGridIndices widthIndex heightIndex)).

(** [array.map((_, index) => f(index)).flat()] *)
Definition flatMapIndices {A B : Type} (a : list A) (f : Z -> list B) : list B :=
  flat_map (fun i => f (Z.of_nat i)) (seq 0 (List.length a)).

Definition pointsArray : list (GridPoint Num) :=
  if (List.length scaledWidthIntervals <? List.length scaledHeightIntervals)%nat
  then flatMapIndices scaledWidthIntervals constrainByWidth
  else flatMapIndices scaledHeightIntervals constrainByHeight.

End GridPoints.

(** The number shown as "walkers active":
    [gridWalkers.filter(({finishedWalk}) => !finishedWalk).size()]. *)
Definition activeWalkers (walkers : list GridWalker) : Z :=
  size (filter (fun w => negb (finishedWalk w)) walkers).

(** A click lands on a point of the grid. *)
Definition clickInGrid (e : Event) : Prop :=
  match e with
  | Click pointClickedOn _ => inGridBounds pointClickedOn
  | _ => True
  end.


(** Every walker the component holds satisfies [Q] and every step record
    it holds satisfies [P]. *)
Definition holdsOnly (Q : GridWalker -> Prop) (P : GridWalkerStepInfo -> Prop)
    (s : GridState) : Prop :=
  latestWalkerAdded s = None
  /\ Forall Q (gridWalkers s)
  /\ Forall Q (walkersTakingNextStep s)
  /\ Forall P (gridStepsTakenSoFar s)
  /\ Forall P (walkersFinishingSteps s)
  /\ Forall P (activeTweens s).

(** Before the first start the lifecycle state tells whether the registry
    is empty. *)
Definition editLifecycle (s : GridState) : Prop :=
  editInvariant s
  /\ (instructionsState s = InstructionsState.NoExtantWalker <-> gridWalkers s = []).

(** * Properties *)

(** ** Value equality decides equality *)

Lemma GridIndices_eqb_eq (a b : GridIndices) : GridIndices_eqb a b = true <-> a = b.
Proof.
  destruct a as [aw ah], b as [bw bh]; unfold GridIndices_eqb; simpl.
  rewrite andb_true_iff, !Z.eqb_eq. split.
  - intros [-> ->]; reflexivity.
  - intros E; inversion E; auto.
Qed.


Lemma InstructionsState_eqb_eq (a b : InstructionsState.t) :
  InstructionsState.eqb a b = true <-> a = b.
Proof. destruct a, b; unfold InstructionsState.eqb; simpl; split; congruence. Qed.

(** ** The collections *)

Lemma removeFirstFound_incl {T : Type} (p : T -> bool) (c : list T) (x : T) :
  In x (removeFirstFoundFromCollection p c) -> In x c.
Proof.
  induction c as [|y c IH]; simpl; [tauto|].
  destruct (p y); simpl; intuition.
Qed.

Lemma removeFirstFound_keeps {T : Type} (p : T -> bool) (c : list T) (x : T) :
  In x c -> p x = false -> In x (removeFirstFoundFromCollection p c).
Proof.
  induction c as [|y c IH]; simpl; [tauto|].
  intros [->|Hin] Hp.
  - rewrite Hp; simpl; auto.
  - destruct (p y); simpl; auto.
Qed.

Lemma removeFirstFound_none {T : Type} (p : T -> bool) (c : list T) :
  find p c = None -> removeFirstFoundFromCollection p c = c.
Proof.
  induction c as [|y c IH]; simpl; [reflexivity|].
  destruct (p y); [discriminate|]. intros H; rewrite (IH H); reflexivity.
Qed.

Lemma removeFirstFound_Forall {T : Type} (P : T -> Prop) (p : T -> bool) (c : list T) :
  Forall P c -> Forall P (removeFirstFoundFromCollection p c).
Proof.
  rewrite !Forall_forall; intros H x Hx; apply H.
  eapply removeFirstFound_incl; eassumption.
Qed.

Lemma truthy_find_false {T : Type} (p : T -> bool) (c : list T) :
  truthy (find p c) = false <-> forall x, In x c -> p x = false.
Proof.
  split.
  - destruct (find p c) eqn:E; [discriminate|].
    intros _ x Hx. exact (find_none p c E x Hx).
  - intros H. destruct (find p c) eqn:E; [|reflexivity].
    apply find_some in E. destruct E as [Hin Hp]. rewrite (H _ Hin) in Hp. discriminate.
Qed.

(** ** The step selector *)



Lemma arrayAt_In {T : Type} (a : list T) (index : Z) (x : T) :
  arrayAt a index = Some x -> In x a.
Proof.
  unfold arrayAt. destruct (index <? 0); [discriminate|]. apply nth_error_In.
Qed.


Lemma isPossibleNextStep_true history color candidate :
  isPossibleNextStep history color candidate = true
  <-> inGridBounds (nextStep candidate) /\ ~ departedFrom history color (nextStep candidate).
Proof.
  unfold isPossibleNextStep, returnFirstOccurrenceIfFound, inGridBounds, zeroBigNumber.
  rewrite !andb_true_iff, negb_true_iff, truthy_find_false.
  rewrite !Z.leb_le, !Z.ltb_lt. split.
  - intros [[[[Hnone ?] ?] ?] ?]. split; [lia|].
    intros (r & Hin & Hfrom & Hcol).
    specialize (Hnone r Hin). rewrite Hfrom, Hcol, !Z.eqb_refl, String.eqb_refl in Hnone.
    discriminate.
  - intros [[[? ?] [? ?]] Hnot]. repeat split; try assumption.
    intros r Hin.
    destruct ((widthIntervalIndex (nextStep candidate) =? widthIntervalIndex (stepFrom r))
              && (heightIntervalIndex (nextStep candidate) =? heightIntervalIndex (stepFrom r))
              && String.eqb (lineColor r) color) eqn:E; [|reflexivity].
    exfalso. apply Hnot. exists r.
    rewrite !andb_true_iff, !Z.eqb_eq, String.eqb_eq in E. destruct E as [[Ew Eh] Ec].
    repeat split; try assumption.
    destruct (stepFrom r), (nextStep candidate); simpl in *; congruence.
Qed.



Lemma possibleNextSteps_legal history cell color candidate :
  In candidate (possibleNextSteps history cell color)
  <-> In candidate (possibleSteps cell)
      /\ inGridBounds (nextStep candidate)
      /\ ~ departedFrom history color (nextStep candidate).
Proof.
  unfold possibleNextSteps. rewrite filter_In, isPossibleNextStep_true. tauto.
Qed.



(** ** Running events *)

Lemma run_invariant (P : GridState -> Prop) :
  (forall e s, P s -> P (step e s)) ->
  forall events s, P s -> P (run events s).
Proof.
  intros Hstep events. induction events as [|e events IH]; intros s Hs; simpl; auto.
Qed.

(** ** What the loops leave alone *)

Lemma animateSteps_fields b l s :
  instructionsState (animateSteps b l s) = instructionsState s
  /\ gridWalkers (animateSteps b l s) = gridWalkers s
  /\ latestWalkerAdded (animateSteps b l s) = latestWalkerAdded s
  /\ gridStepsTakenSoFar (animateSteps b l s) = gridStepsTakenSoFar s
  /\ walkersTakingNextStep (animateSteps b l s) = walkersTakingNextStep s
  /\ walkersFinishingSteps (animateSteps b l s) = walkersFinishingSteps s
  /\ gridEditFocus (animateSteps b l s) = gridEditFocus s
  /\ stepping (animateSteps b l s) = stepping s
  /\ activeTweens (animateSteps b l s) = activeTweens s ++ (if b then l else []).
Proof.
  revert s. induction l as [|x l IH]; intros s; simpl.
  - destruct b; rewrite app_nil_r; repeat split.
  - destruct (IH (if b then updateActiveTweens (fun ts => ts ++ [x]) s else s))
      as (E1 & E2 & E3 & E4 & E5 & E6 & E7 & E8 & E9).
    rewrite E1, E2, E3, E4, E5, E6, E7, E8, E9.
    destruct b; simpl; repeat split. rewrite <- app_assoc. reflexivity.
Qed.

Lemma queueFinishedSteps_fields walkers b l s :
  instructionsState (queueFinishedSteps walkers b l s) = instructionsState s
  /\ gridWalkers (queueFinishedSteps walkers b l s) = gridWalkers s
  /\ latestWalkerAdded (queueFinishedSteps walkers b l s) = latestWalkerAdded s
  /\ gridStepsTakenSoFar (queueFinishedSteps walkers b l s) = gridStepsTakenSoFar s
  /\ walkersTakingNextStep (queueFinishedSteps walkers b l s) = walkersTakingNextStep s
  /\ walkersFinishingSteps (queueFinishedSteps walkers b l s)
     = walkersFinishingSteps s
       ++ filter (fun r => truthy (walkerStillAtFrom walkers r) && b) l
  /\ gridEditFocus (queueFinishedSteps walkers b l s) = gridEditFocus s
  /\ stepping (queueFinishedSteps walkers b l s) = stepping s
  /\ activeTweens (queueFinishedSteps walkers b l s) = activeTweens s.
Proof.
  revert s. induction l as [|x l IH]; intros s; simpl.
  - rewrite app_nil_r; repeat split.
  - match goal with |- context [queueFinishedSteps walkers b l ?s'] =>
      destruct (IH s') as (E1 & E2 & E3 & E4 & E5 & E6 & E7 & E8 & E9) end.
    rewrite E1, E2, E3, E4, E5, E6, E7, E8, E9.
    destruct (truthy (walkerStillAtFrom walkers x) && b); simpl; repeat split.
    rewrite <- app_assoc. reflexivity.
Qed.

Lemma queueEveryWalker_fields l s :
  instructionsState (queueEveryWalker l s) = instructionsState s
  /\ gridWalkers (queueEveryWalker l s) = gridWalkers s
  /\ latestWalkerAdded (queueEveryWalker l s) = latestWalkerAdded s
  /\ gridStepsTakenSoFar (queueEveryWalker l s) = gridStepsTakenSoFar s
  /\ walkersTakingNextStep (queueEveryWalker l s) = walkersTakingNextStep s ++ l
  /\ walkersFinishingSteps (queueEveryWalker l s) = walkersFinishingSteps s
  /\ gridEditFocus (queueEveryWalker l s) = gridEditFocus s
  /\ stepping (queueEveryWalker l s) = stepping s
  /\ activeTweens (queueEveryWalker l s) = activeTweens s.
Proof.
  revert s. induction l as [|x l IH]; intros s; simpl.
  - rewrite app_nil_r; repeat split.
  - destruct (IH (addWalkerTakingNextStep x s))
      as (E1 & E2 & E3 & E4 & E5 & E6 & E7 & E8 & E9).
    rewrite E1, E2, E3, E4, E5, E6, E7, E8, E9. simpl. repeat split.
    rewrite <- app_assoc. reflexivity.
Qed.

Lemma takeNextSteps_fields history randoms queue s :
  instructionsState (takeNextSteps history randoms queue s) = instructionsState s
  /\ latestWalkerAdded (takeNextSteps history randoms queue s) = latestWalkerAdded s
  /\ walkersTakingNextStep (takeNextSteps history randoms queue s) = walkersTakingNextStep s
  /\ walkersFinishingSteps (takeNextSteps history randoms queue s) = walkersFinishingSteps s
  /\ gridEditFocus (takeNextSteps history randoms queue s) = gridEditFocus s
  /\ stepping (takeNextSteps history randoms queue s) = stepping s
  /\ activeTweens (takeNextSteps history randoms queue s) = activeTweens s.
Proof.
  revert randoms s. induction queue as [|w queue IH]; intros randoms s; simpl.
  - repeat split.
  - match goal with |- context [takeNextSteps history (tl randoms) queue ?s'] =>
      destruct (IH (tl randoms) s') as (E1 & E2 & E3 & E4 & E5 & E6 & E7) end.
    rewrite E1, E2, E3, E4, E5, E6, E7.
    destruct (walkerStep history (hd 0%Q randoms) w); simpl; repeat split.
Qed.

Lemma finishSteps_fields queue s :
  instructionsState (finishSteps queue s) = instructionsState s
  /\ latestWalkerAdded (finishSteps queue s) = latestWalkerAdded s
  /\ gridStepsTakenSoFar (finishSteps queue s) = gridStepsTakenSoFar s
  /\ walkersFinishingSteps (finishSteps queue s) = walkersFinishingSteps s
  /\ gridEditFocus (finishSteps queue s) = gridEditFocus s
  /\ stepping (finishSteps queue s) = stepping s
  /\ activeTweens (finishSteps queue s) = activeTweens s
  /\ walkersTakingNextStep (finishSteps queue s)
     = walkersTakingNextStep s
       ++ map (fun r => mkGridWalker (stepTo r) (lineColor r) false) queue.
Proof.
  revert s. induction queue as [|r queue IH]; intros s; simpl.
  - rewrite app_nil_r. repeat split.
  - match goal with |- context [finishSteps queue ?s'] =>
      destruct (IH s') as (E1 & E2 & E3 & E4 & E5 & E6 & E7 & E8) end.
    rewrite E1, E2, E3, E4, E5, E6, E7, E8. simpl. repeat split.
    rewrite <- app_assoc. reflexivity.
Qed.

Lemma renderEffect_fields s :
  instructionsState (renderEffect s) = instructionsState s
  /\ gridWalkers (renderEffect s) = gridWalkers s
  /\ latestWalkerAdded (renderEffect s) = latestWalkerAdded s
  /\ gridStepsTakenSoFar (renderEffect s) = gridStepsTakenSoFar s
  /\ walkersTakingNextStep (renderEffect s) = walkersTakingNextStep s
  /\ walkersFinishingSteps (renderEffect s)
     = walkersFinishingSteps s
       ++ filter (fun r => truthy (walkerStillAtFrom (gridWalkers s) r) && stepping s)
            (filter hasFinishedAnimating (gridStepsTakenSoFar s))
  /\ gridEditFocus (renderEffect s) = gridEditFocus s
  /\ stepping (renderEffect s) = stepping s
  /\ activeTweens (renderEffect s)
     = activeTweens s
       ++ (if stepping s
           then filter (fun r => negb (hasFinishedAnimating r)) (gridStepsTakenSoFar s)
           else []).
Proof.
  unfold renderEffect.
  match goal with |- context [queueFinishedSteps ?ws ?b ?l ?s'] =>
    destruct (queueFinishedSteps_fields ws b l s')
      as (E1 & E2 & E3 & E4 & E5 & E6 & E7 & E8 & E9) end.
  rewrite E1, E2, E3, E4, E5, E6, E7, E8, E9.
  match goal with |- context [animateSteps ?b ?l ?s'] =>
    destruct (animateSteps_fields b l s')
      as (F1 & F2 & F3 & F4 & F5 & F6 & F7 & F8 & F9) end.
  rewrite F1, F2, F3, F4, F5, F6, F7, F8, F9. repeat split.
Qed.

(** ** Step records are well formed *)

Lemma walkerStep_record history random w r :
  walkerStep history random w = Some r ->
  directionConsistent r
  /\ stepFrom r = onGridAt w
  /\ lineColor r = walkerColor w
  /\ stepFinishedAnimatingAt r = None.
Proof.
  unfold walkerStep.
  destruct (chooseNextStep history random (onGridAt w) (walkerColor w)) as [ns|] eqn:E;
    [|discriminate].
  intros H; inversion H; subst; clear H. simpl. repeat split.
  unfold chooseNextStep in E. apply arrayAt_In in E.
  apply possibleNextSteps_legal in E. destruct E as [Hin _].
  unfold possibleSteps, bigIntSubtractionResult, bigIntAdditionResult, oneBigNumber in Hin.
  unfold directionConsistent. simpl in *.
  destruct Hin as [<-|[<-|[<-|[<-|[]]]]]; simpl; lia.
Qed.

Lemma takeNextSteps_history_Forall (P : GridWalkerStepInfo -> Prop) history randoms queue s :
  (forall random w r, walkerStep history random w = Some r -> P r) ->
  Forall P (gridStepsTakenSoFar s) ->
  Forall P (gridStepsTakenSoFar (takeNextSteps history randoms queue s)).
Proof.
  intros Hstep. revert randoms s.
  induction queue as [|w queue IH]; intros randoms s Hs; simpl; [assumption|].
  apply IH. destruct (walkerStep history (hd 0%Q randoms) w) as [r|] eqn:E; simpl.
  - unfold addToCollection. apply Forall_app. split; [assumption|].
    constructor; [eapply Hstep; eassumption | constructor].
  - assumption.
Qed.

Lemma removeNth_incl {T : Type} (n : nat) (l : list T) (x : T) :
  In x (removeNth n l) -> In x l.
Proof.
  revert n. induction l as [|y l IH]; intros n; destruct n; simpl; intuition eauto.
Qed.

Lemma onComplete_fields stepToAnimate now s :
  instructionsState (onComplete stepToAnimate now s) = instructionsState s
  /\ gridWalkers (onComplete stepToAnimate now s) = gridWalkers s
  /\ latestWalkerAdded (onComplete stepToAnimate now s) = latestWalkerAdded s
  /\ walkersTakingNextStep (onComplete stepToAnimate now s) = walkersTakingNextStep s
  /\ walkersFinishingSteps (onComplete stepToAnimate now s) = walkersFinishingSteps s
  /\ gridEditFocus (onComplete stepToAnimate now s) = gridEditFocus s
  /\ stepping (onComplete stepToAnimate now s) = stepping s
  /\ activeTweens (onComplete stepToAnimate now s) = activeTweens s.
Proof. unfold onComplete; simpl; repeat split. Qed.

Lemma onComplete_history_Forall (P : GridWalkerStepInfo -> Prop) stepToAnimate now s :
  Forall P (gridStepsTakenSoFar s) ->
  P (mkGridWalkerStepInfo (stepFrom stepToAnimate) (stepTo stepToAnimate)
       (stepDir stepToAnimate) (lineColor stepToAnimate) (Some now)) ->
  Forall P (gridStepsTakenSoFar (onComplete stepToAnimate now s)).
Proof.
  intros Hs Hnew. unfold onComplete; simpl. unfold addToCollection.
  apply Forall_app. split; [|constructor; [assumption|constructor]].
  unfold removeFromCollection. repeat apply removeFirstFound_Forall. assumption.
Qed.

Lemma Forall_filter {T : Type} (P : T -> Prop) (p : T -> bool) (l : list T) :
  Forall P l -> Forall P (filter p l).
Proof.
  rewrite !Forall_forall. intros H x Hx. apply filter_In in Hx. apply H, Hx.
Qed.

Lemma keyDownListener_records key s :
  (gridStepsTakenSoFar (keyDownListener key s) = gridStepsTakenSoFar s
   \/ gridStepsTakenSoFar (keyDownListener key s) = [])
  /\ (walkersFinishingSteps (keyDownListener key s) = walkersFinishingSteps s
      \/ walkersFinishingSteps (keyDownListener key s) = [])
  /\ activeTweens (keyDownListener key s) = activeTweens s.
Proof.
  unfold keyDownListener.
  destruct (queueEveryWalker_fields (gridWalkers s) (setStepping true s))
    as (E1 & E2 & E3 & E4 & E5 & E6 & E7 & E8 & E9).
  repeat match goal with
         | |- context [if ?c then _ else _] => destruct c
         end; simpl; rewrite ?E4, ?E6, ?E9; simpl; auto.
Qed.

Lemma click_records p color s :
  gridStepsTakenSoFar (step (Click p color) s) = gridStepsTakenSoFar s
  /\ walkersFinishingSteps (step (Click p color) s) = walkersFinishingSteps s
  /\ walkersTakingNextStep (step (Click p color) s) = walkersTakingNextStep s
  /\ stepping (step (Click p color) s) = stepping s
  /\ activeTweens (step (Click p color) s) = activeTweens s.
Proof.
  unfold step, latestWalkerAddedEffect, handleClickingOnPointShape.
  repeat match goal with
         | |- context [if ?c then _ else _] => destruct c
         | |- context [match ?c with _ => _ end] => destruct c
         end; simpl; auto.
Qed.

Lemma step_wellFormedRecords e s : wellFormedRecords s -> wellFormedRecords (step e s).
Proof.
  intros (Hh & Hf & Ht). unfold wellFormedRecords. destruct e as [p c|key|tween now| |randoms|].
  - destruct (click_records p c s) as (E1 & E2 & _ & _ & E3). rewrite E1, E2, E3. auto.
  - destruct (keyDownListener_records key s) as ([E1|E1] & [E2|E2] & E3);
      simpl; rewrite E1, E2, E3; auto.
  - simpl. destruct (nth_error (activeTweens s) tween) as [r|] eqn:E; [|auto].
    destruct (onComplete_fields r now (updateActiveTweens (removeNth tween) s))
      as (_ & _ & _ & _ & E5 & _ & _ & E8).
    rewrite E5, E8. simpl.
    assert (Hr : directionConsistent r).
    { apply nth_error_In in E. rewrite Forall_forall in Ht. auto. }
    split; [|split].
    + apply onComplete_history_Forall; [assumption|]. exact Hr.
    + assumption.
    + rewrite Forall_forall in *. intros x Hx. apply Ht. eapply removeNth_incl; eassumption.
  - simpl. destruct (renderEffect_fields s) as (_ & _ & _ & E4 & _ & E6 & _ & _ & E9).
    rewrite E4, E6, E9. split; [assumption|]. split; apply Forall_app; split; try assumption.
    + repeat apply Forall_filter. assumption.
    + destruct (stepping s); [apply Forall_filter; assumption | constructor].
  - simpl. unfold walkersTakingNextStepEffect.
    destruct (0 <? List.length (walkersTakingNextStep s))%nat; [|auto].
    destruct (takeNextSteps_fields (gridStepsTakenSoFar s) randoms (walkersTakingNextStep s) s)
      as (_ & _ & _ & E4 & _ & _ & E7).
    simpl. rewrite E4, E7. split; [|auto].
    apply takeNextSteps_history_Forall; [|assumption].
    intros random w r Hr. apply (walkerStep_record _ _ _ _ Hr).
  - simpl. unfold walkersFinishingStepsEffect.
    destruct (0 <? List.length (walkersFinishingSteps s))%nat; [|auto].
    destruct (finishSteps_fields (walkersFinishingSteps s) s)
      as (_ & _ & E3 & _ & _ & _ & E7 & _).
    simpl. rewrite E3, E7. auto.
Qed.

(** C8.  Every step record the component ever holds (in the step history,
    in the queue of finished steps, or awaited by a running tween) is
    internally consistent: its direction determines its to-cell from its
    from-cell. *)
Theorem step_records_direction_consistent :
  forall (events : list Event) (r : GridWalkerStepInfo),
    In r (gridStepsTakenSoFar (run events initialState))
    \/ In r (walkersFinishingSteps (run events initialState))
    \/ In r (activeTweens (run events initialState)) ->
    directionConsistent r.
Proof.
  intros events r Hr.
  assert (Hwf : wellFormedRecords (run events initialState)).
  { apply run_invariant; [exact step_wellFormedRecords|].
    unfold wellFormedRecords, initialState; simpl. auto. }
  destruct Hwf as (Hh & Hf & Ht). rewrite Forall_forall in Hh, Hf, Ht.
  destruct Hr as [Hr|[Hr|Hr]]; auto.
Qed.

(** ** The lifecycle *)

Lemma keyDownListener_reset key s :
  toLowerCase key = "e"%string ->
  instructionsState s <> InstructionsState.NoExtantWalker ->
  instructionsState s <> InstructionsState.GridWalkerRemoval ->
  gridWalkers (keyDownListener key s) = []
  /\ gridStepsTakenSoFar (keyDownListener key s) = []
  /\ walkersTakingNextStep (keyDownListener key s) = []
  /\ walkersFinishingSteps (keyDownListener key s) = []
  /\ instructionsState (keyDownListener key s) = InstructionsState.NoExtantWalker
  /\ stepping (keyDownListener key s) = stepping s
  /\ activeTweens (keyDownListener key s) = activeTweens s.
Proof.
  intros Hkey Hno Hrem. unfold keyDownListener. rewrite Hkey. simpl.
  destruct (instructionsState s); simpl; try congruence; repeat split.
Qed.

(** C7.  The reset command, in any state except NoExtantWalker and
    GridWalkerRemoval, empties the walker registry, the step history and
    both queues and moves the lifecycle to NoExtantWalker; in
    NoExtantWalker it is ignored, so resetting twice in a row from there
    leaves the whole state unchanged. *)
Theorem reset_clears_and_is_idempotent :
  forall (key : string) (s : GridState),
    toLowerCase key = "e"%string ->
    (instructionsState s <> InstructionsState.NoExtantWalker ->
     instructionsState s <> InstructionsState.GridWalkerRemoval ->
     gridWalkers (keyDownListener key s) = []
     /\ gridStepsTakenSoFar (keyDownListener key s) = []
     /\ walkersTakingNextStep (keyDownListener key s) = []
     /\ walkersFinishingSteps (keyDownListener key s) = []
     /\ instructionsState (keyDownListener key s) = InstructionsState.NoExtantWalker)
    /\ (instructionsState s = InstructionsState.NoExtantWalker ->
        keyDownListener key s = s
        /\ keyDownListener key (keyDownListener key s) = s).
Proof.
  intros key s Hkey. split.
  - intros Hno Hrem.
    destruct (keyDownListener_reset key s Hkey Hno Hrem) as (R1 & R2 & R3 & R4 & R5 & _).
    auto.
  - intros Hno. unfold keyDownListener. rewrite Hkey. simpl.
    rewrite Hno. simpl. rewrite Hno. simpl. split; reflexivity.
Qed.

Lemma walkersAt_nil_find p walkers :
  walkersAt p walkers = [] ->
  find (fun w =>
          (widthIntervalIndex p =? widthIntervalIndex (onGridAt w))
          && (heightIntervalIndex p =? heightIntervalIndex (onGridAt w))) walkers = None.
Proof.
  unfold walkersAt, GridIndices_eqb.
  induction walkers as [|w walkers IH]; simpl; [reflexivity|].
  destruct ((widthIntervalIndex p =? widthIntervalIndex (onGridAt w))
            && (heightIntervalIndex p =? heightIntervalIndex (onGridAt w)));
    [discriminate | exact IH].
Qed.

(** C9.  In the GridWalkerRemoval state, a click on an unoccupied point
    adds a new walker at that point and moves the edit focus to it, and the
    lifecycle state stays GridWalkerRemoval. *)
Theorem click_free_point_while_removal_pending :
  forall (s : GridState) (pointClickedOn : GridIndices) (randomColor : string),
    instructionsState s = InstructionsState.GridWalkerRemoval ->
    walkersAt pointClickedOn (gridWalkers s) = [] ->
    gridWalkers (step (Click pointClickedOn randomColor) s)
    = gridWalkers s ++ [mkGridWalker pointClickedOn randomColor false]
    /\ gridEditFocus (step (Click pointClickedOn randomColor) s) = Some pointClickedOn
    /\ instructionsState (step (Click pointClickedOn randomColor) s)
       = InstructionsState.GridWalkerRemoval.
Proof.
  intros s p color Hst Hfree. apply walkersAt_nil_find in Hfree.
  unfold step, pointEntityType, returnFirstOccurrenceIfFound. rewrite Hfree. simpl.
  unfold handleClickingOnPointShape. rewrite Hst. simpl.
  unfold latestWalkerAddedEffect. simpl. rewrite Hst. simpl.
  unfold addToCollection. rewrite (removeFirstFound_none _ _ Hfree). auto.
Qed.

Lemma click_lifecycle p color s :
  (inRun s -> instructionsState (step (Click p color) s) = instructionsState s)
  /\ (~ inRun s -> ~ inRun (step (Click p color) s))
  /\ latestWalkerAdded (step (Click p color) s) = None.
Proof.
  unfold inRun, step, latestWalkerAddedEffect, handleClickingOnPointShape.
  destruct (instructionsState s) eqn:Hst; simpl;
    repeat (rewrite ?Hst; simpl;
            match goal with
            | |- context [if ?c then _ else _] => destruct c
            | |- context [match ?c with _ => _ end] => destruct c eqn:?
            end); simpl; rewrite ?Hst; simpl.
  all: (split; [|split]); try reflexivity; try assumption.
  all: try (intros [?|?]; congruence).
  all: try (intros _ [?|?]; congruence).
  all: try (intros ? [?|?]; congruence).
  all: try tauto.
Qed.

Lemma keyDownListener_stepping key s :
  stepping s = true -> toLowerCase key <> "p"%string ->
  stepping (keyDownListener key s) = true.
Proof.
  intros Hs Hkey. unfold keyDownListener.
  destruct (queueEveryWalker_fields (gridWalkers s) (setStepping true s))
    as (_ & _ & _ & _ & _ & _ & _ & E8 & _).
  destruct (String.eqb (toLowerCase key) "s"); [destruct (InstructionsState.eqb _ _); simpl; auto|].
  destruct (String.eqb (toLowerCase key) "p") eqn:Ep; [apply String.eqb_eq in Ep; contradiction|].
  repeat match goal with
         | |- context [if ?c then _ else _] => destruct c
         end; simpl; auto.
Qed.

Lemma step_stepping e s :
  stepping s = true -> ~ isKey "p" e -> stepping (step e s) = true.
Proof.
  intros Hs Hkey. destruct e as [p c|key|tween now| |randoms|].
  - destruct (click_records p c s) as (_ & _ & _ & E & _). rewrite E. assumption.
  - simpl. apply keyDownListener_stepping; [assumption|].
    intros Hp. apply Hkey. exists key. auto.
  - simpl. destruct (nth_error (activeTweens s) tween); [|assumption].
    unfold onComplete; simpl. assumption.
  - simpl. destruct (renderEffect_fields s) as (_ & _ & _ & _ & _ & _ & _ & E & _).
    rewrite E. assumption.
  - simpl. unfold walkersTakingNextStepEffect.
    destruct (0 <? _)%nat; [|assumption]. simpl.
    destruct (takeNextSteps_fields (gridStepsTakenSoFar s) randoms (walkersTakingNextStep s) s)
      as (_ & _ & _ & _ & _ & E & _). rewrite E. assumption.
  - simpl. unfold walkersFinishingStepsEffect.
    destruct (0 <? _)%nat; [|assumption]. simpl.
    destruct (finishSteps_fields (walkersFinishingSteps s) s)
      as (_ & _ & _ & _ & _ & E & _). rewrite E. assumption.
Qed.

Lemma step_lifecycleInvariant e s : lifecycleInvariant s -> lifecycleInvariant (step e s).
Proof.
  intros (Hl & Hr & Hp). unfold lifecycleInvariant.
  destruct e as [p c|key|tween now| |randoms|].
  - destruct (click_lifecycle p c s) as (Hin & Hout & Hnone).
    destruct (click_records p c s) as (_ & _ & _ & E & _). rewrite E, Hnone.
    split; [reflexivity|].
    split; intros Hst.
    + destruct (instructionsState s) eqn:Hs;
        try (exfalso; apply Hout; [unfold inRun; intuition congruence | unfold inRun; auto]).
      * auto.
      * rewrite Hin in Hst by (unfold inRun; auto). congruence.
    + destruct (instructionsState s) eqn:Hs;
        try (exfalso; apply Hout; [unfold inRun; intuition congruence | unfold inRun; auto]).
      * rewrite Hin in Hst by (unfold inRun; auto). congruence.
      * auto.
  - simpl. unfold keyDownListener.
    destruct (queueEveryWalker_fields (gridWalkers s) (setStepping true s))
      as (E1 & _ & E3 & _ & _ & _ & _ & E8 & _).
    destruct (instructionsState s) eqn:Hs;
      repeat match goal with
             | |- context [if ?c then _ else _] => destruct c
             end; simpl; rewrite ?E3, ?E8, ?Hs; simpl;
      (split; [assumption|]); split; intros; try congruence; auto.
  - simpl. destruct (nth_error (activeTweens s) tween); [|auto].
    unfold onComplete; simpl. auto.
  - simpl. destruct (renderEffect_fields s) as (E1 & _ & E3 & _ & _ & _ & _ & E8 & _).
    rewrite E1, E3, E8. auto.
  - simpl. unfold walkersTakingNextStepEffect.
    destruct (0 <? _)%nat; [|auto]. simpl.
    destruct (takeNextSteps_fields (gridStepsTakenSoFar s) randoms (walkersTakingNextStep s) s)
      as (E1 & E2 & _ & _ & _ & E6 & _). rewrite E1, E2, E6. auto.
  - simpl. unfold walkersFinishingStepsEffect.
    destruct (0 <? _)%nat; [|auto]. simpl.
    destruct (finishSteps_fields (walkersFinishingSteps s) s)
      as (E1 & E2 & _ & _ & _ & E6 & _). rewrite E1, E2, E6. auto.
Qed.

Lemma reachable_lifecycleInvariant events : lifecycleInvariant (run events initialState).
Proof.
  apply run_invariant; [exact step_lifecycleInvariant|].
  unfold lifecycleInvariant, initialState; simpl. repeat split; congruence.
Qed.

(** C10.  The reset command does not touch the stepping flag: when reset
    is pressed while Running, the lifecycle becomes NoExtantWalker and the
    flag, true while Running, is still true, and it stays true under every
    later event until a pause key is pressed. *)
Theorem reset_keeps_stepping_flag :
  forall (events later : list Event) (key : string),
    toLowerCase key = "e"%string ->
    instructionsState (run events initialState) = InstructionsState.Running ->
    Forall (fun e => ~ isKey "p" e) later ->
    stepping (run events initialState) = true
    /\ instructionsState (keyDownListener key (run events initialState))
       = InstructionsState.NoExtantWalker
    /\ stepping (keyDownListener key (run events initialState)) = true
    /\ stepping (run later (keyDownListener key (run events initialState))) = true.
Proof.
  intros events later key Hkey Hrun Hlater.
  destruct (reachable_lifecycleInvariant events) as (_ & Hr & _).
  specialize (Hr Hrun).
  assert (Hreset : stepping (keyDownListener key (run events initialState)) = true).
  { unfold keyDownListener. rewrite Hkey, Hrun. simpl. assumption. }
  split; [assumption|]. split; [|split; [assumption|]].
  - unfold keyDownListener. rewrite Hkey, Hrun. reflexivity.
  - revert Hreset. generalize (keyDownListener key (run events initialState)).
    induction Hlater as [|e later He Hlater IH]; intros s Hs; simpl; [assumption|].
    apply IH. apply step_stepping; assumption.
Qed.

(** ** Completions of tweens while paused and after a reset *)






(** ** Occupancy *)

Lemma walkersAt_app cell l l' :
  walkersAt cell (l ++ l') = walkersAt cell l ++ walkersAt cell l'.
Proof. unfold walkersAt. apply filter_app. Qed.

Lemma walkersAt_removeFirstFound_le cell p l :
  (List.length (walkersAt cell (removeFirstFoundFromCollection p l))
   <= List.length (walkersAt cell l))%nat.
Proof.
  unfold walkersAt. induction l as [|y l IH]; simpl; [lia|].
  destruct (p y); simpl; destruct (GridIndices_eqb cell (onGridAt y)); simpl; lia.
Qed.

Lemma walkersAt_removed cell l :
  (List.length (walkersAt cell l) <= 1)%nat ->
  walkersAt cell
    (removeFirstFoundFromCollection (fun w => GridIndices_eqb cell (onGridAt w)) l) = [].
Proof.
  unfold walkersAt. induction l as [|y l IH]; simpl; [reflexivity|].
  destruct (GridIndices_eqb cell (onGridAt y)) eqn:E; simpl.
  - intros H. destruct (filter _ l); [reflexivity | simpl in H; lia].
  - rewrite E. exact IH.
Qed.

Lemma click_walkers p color s :
  latestWalkerAdded s = None ->
  gridWalkers (step (Click p color) s) = gridWalkers s
  \/ gridWalkers (step (Click p color) s)
     = removeFirstFoundFromCollection (fun w => GridIndices_eqb p (onGridAt w)) (gridWalkers s)
  \/ gridWalkers (step (Click p color) s)
     = removeFirstFoundFromCollection (fun w => GridIndices_eqb p (onGridAt w)) (gridWalkers s)
       ++ [mkGridWalker p color false].
Proof.
  intros Hl. unfold step, latestWalkerAddedEffect, handleClickingOnPointShape.
  repeat match goal with
         | |- context [if ?c then _ else _] => destruct c
         | |- context [match gridEditFocus s with _ => _ end] => destruct (gridEditFocus s)
         | |- context [match pointEntityType ?a ?b with _ => _ end] =>
             destruct (pointEntityType a b)
         end; simpl; rewrite ?Hl; simpl; auto.
Qed.

Lemma keyDownListener_editing key s :
  toLowerCase key <> "s"%string -> ~ inRun s ->
  ~ inRun (keyDownListener key s)
  /\ (gridWalkers (keyDownListener key s) = gridWalkers s
      \/ gridWalkers (keyDownListener key s) = [])
  /\ (walkersTakingNextStep (keyDownListener key s) = walkersTakingNextStep s
      \/ walkersTakingNextStep (keyDownListener key s) = [])
  /\ latestWalkerAdded (keyDownListener key s) = latestWalkerAdded s.
Proof.
  intros Hkey Hrun. unfold keyDownListener.
  destruct (String.eqb (toLowerCase key) "s") eqn:Es;
    [apply String.eqb_eq in Es; contradiction|].
  unfold inRun in *.
  destruct (instructionsState s) eqn:Hst;
    try (exfalso; apply Hrun; auto; fail); simpl;
    repeat match goal with
           | |- context [if ?c then _ else _] => destruct c
           end; simpl; rewrite ?Hst;
    (split; [intros [?|?]; congruence | auto]).
Qed.

Lemma step_editInvariant e s :
  ~ isKey "s" e -> editInvariant s -> editInvariant (step e s).
Proof.
  intros Hkey (Hl & Hrun & Hh & Ht & Hq & Hf & Hocc). unfold editInvariant.
  destruct e as [p c|key|tween now| |randoms|].
  - destruct (click_lifecycle p c s) as (_ & Hout & Hnone).
    destruct (click_records p c s) as (E1 & E2 & E3 & _ & E5).
    rewrite Hnone, E1, E2, E3, E5. repeat split; auto.
    intros cell. destruct (click_walkers p c s Hl) as [E|[E|E]]; rewrite E.
    + apply Hocc.
    + etransitivity; [apply walkersAt_removeFirstFound_le | apply Hocc].
    + rewrite walkersAt_app, length_app.
      destruct (GridIndices_eqb cell p) eqn:Ecell.
      * apply GridIndices_eqb_eq in Ecell. subst cell.
        rewrite walkersAt_removed by apply Hocc. simpl.
        destruct (GridIndices_eqb p p); simpl; lia.
      * unfold walkersAt at 2. simpl. rewrite Ecell. simpl.
        rewrite Nat.add_0_r.
        etransitivity; [apply walkersAt_removeFirstFound_le | apply Hocc].
  - assert (Hs : toLowerCase key <> "s"%string).
    { intros E. apply Hkey. exists key. auto. }
    destruct (keyDownListener_editing key s Hs Hrun) as (K1 & K2 & K3 & K4).
    destruct (keyDownListener_records key s) as (K5 & K6 & K7).
    simpl. rewrite K4, K7. repeat split; auto.
    + destruct K5 as [E|E]; congruence.
    + destruct K3 as [E|E]; congruence.
    + destruct K6 as [E|E]; congruence.
    + intros cell. destruct K2 as [E|E]; rewrite E; [apply Hocc | simpl; lia].
  - simpl. rewrite Ht. destruct tween; simpl; repeat split; auto.
  - simpl. destruct (renderEffect_fields s) as (E1 & E2 & E3 & E4 & E5 & E6 & E7 & E8 & E9).
    unfold inRun. rewrite E1, E2, E3, E4, E5, E6, E9, Hh, Ht, Hf. simpl.
    destruct (stepping s); repeat split; auto.
  - simpl. unfold walkersTakingNextStepEffect. rewrite Hq. simpl. repeat split; auto.
  - simpl. unfold walkersFinishingStepsEffect. rewrite Hf. simpl. repeat split; auto.
Qed.

(** C4, as the code has it.  In every state reached before the start key
    is pressed for the first time, at most one walker of the registry
    occupies any given cell, so a first-match lookup for a cell has no
    second match.  (During a run nothing keeps two walkers apart.) *)
Theorem one_walker_per_cell_before_start :
  forall (events : list Event) (cell : GridIndices),
    Forall (fun e => ~ isKey "s" e) events ->
    (List.length (walkersAt cell (gridWalkers (run events initialState))) <= 1)%nat.
Proof.
  intros events cell Hevents.
  assert (Hinv : editInvariant (run events initialState)).
  { assert (H0 : editInvariant initialState).
    { unfold editInvariant, initialState, inRun; simpl.
      repeat split; auto. intros [?|?]; discriminate. }
    revert H0. generalize initialState.
    induction Hevents as [|e events He Hevents IH]; intros s Hs; simpl; [assumption|].
    apply IH. apply step_editInvariant; assumption. }
  destruct Hinv as (_ & _ & _ & _ & _ & _ & Hocc). apply Hocc.
Qed.

(** ** Finished walkers *)

Lemma keyDownListener_in_run key s :
  toLowerCase key <> "e"%string -> inRun s ->
  inRun (keyDownListener key s)
  /\ gridWalkers (keyDownListener key s) = gridWalkers s
  /\ walkersTakingNextStep (keyDownListener key s) = walkersTakingNextStep s
  /\ latestWalkerAdded (keyDownListener key s) = latestWalkerAdded s.
Proof.
  intros Hkey Hrun. unfold keyDownListener.
  destruct (String.eqb (toLowerCase key) "e") eqn:Ee;
    [apply String.eqb_eq in Ee; contradiction|].
  unfold inRun in *.
  destruct Hrun as [Hst|Hst]; rewrite Hst; simpl;
    repeat match goal with
           | |- context [if ?c then _ else _] => destruct c
           end; simpl; rewrite ?Hst; auto.
Qed.






(** ** The keys of [constructLineFromToKey] *)

Lemma string_of_uint_noSeparator d : noSeparator (NilEmpty.string_of_uint d).
Proof. induction d; simpl; auto; split; auto; discriminate. Qed.

Lemma bigIntToString_noSeparator z : noSeparator (bigIntToString z).
Proof.
  unfold bigIntToString. destruct (Z.to_int z); simpl.
  - apply string_of_uint_noSeparator.
  - split; [discriminate | apply string_of_uint_noSeparator].
Qed.

Lemma bigIntToString_inj z z' : bigIntToString z = bigIntToString z' -> z = z'.
Proof.
  unfold bigIntToString. intros H. apply DecimalZ.to_int_inj.
  assert (E : Some (Z.to_int z) = Some (Z.to_int z')).
  { rewrite <- (NilEmpty.isi (Z.to_int z)), <- (NilEmpty.isi (Z.to_int z')), H. reflexivity. }
  inversion E. reflexivity.
Qed.

Lemma append_separator_inj a a' b b' :
  noSeparator a -> noSeparator a' ->
  (a ++ "_" ++ b)%string = (a' ++ "_" ++ b')%string -> a = a' /\ b = b'.
Proof.
  revert a'. induction a as [|c a IH]; intros [|c' a'] Ha Ha' H; simpl in *.
  - inversion H. auto.
  - inversion H; subst. destruct Ha' as [Hc _]. contradiction Hc. reflexivity.
  - inversion H; subst. destruct Ha as [Hc _]. contradiction Hc. reflexivity.
  - inversion H; subst. destruct Ha as [_ Ha]. destruct Ha' as [_ Ha'].
    destruct (IH a' Ha Ha' H2) as [-> ->]. auto.
Qed.

Lemma constructLineFromToKey_inj f t f' t' :
  constructLineFromToKey f t = constructLineFromToKey f' t' -> f = f' /\ t = t'.
Proof.
  destruct f as [a b], t as [c d], f' as [a' b'], t' as [c' d'].
  unfold constructLineFromToKey; simpl. intros H.
  apply append_separator_inj in H; try apply bigIntToString_noSeparator.
  destruct H as [Ha H].
  apply append_separator_inj in H; try apply bigIntToString_noSeparator.
  destruct H as [Hb H].
  apply append_separator_inj in H; try apply bigIntToString_noSeparator.
  destruct H as [Hc Hd].
  apply bigIntToString_inj in Ha, Hb, Hc, Hd. subst. auto.
Qed.

(** Both predicates that [onComplete] passes to
    [removeFirstMatchingGridStep] hold of a record exactly when the record
    goes from the same cell to the same cell as the completed step: the
    second swaps the two cells on both sides of the comparison. *)
Lemma onComplete_predicates_same_direction step r :
  (String.eqb (constructLineFromToKey (stepFrom r) (stepTo r))
     (constructLineFromToKey (stepFrom step) (stepTo step)) = true
   <-> stepFrom r = stepFrom step /\ stepTo r = stepTo step)
  /\ (String.eqb (constructLineFromToKey (stepTo r) (stepFrom r))
        (constructLineFromToKey (stepTo step) (stepFrom step)) = true
      <-> stepFrom r = stepFrom step /\ stepTo r = stepTo step).
Proof.
  rewrite !String.eqb_eq. split; split.
  - apply constructLineFromToKey_inj.
  - intros [-> ->]. reflexivity.
  - intros H. apply constructLineFromToKey_inj in H. tauto.
  - intros [-> ->]. reflexivity.
Qed.

(** A record of the opposite direction over the same pair of cells
    survives every completion. *)
Lemma onComplete_keeps_reverse_records step now s r :
  In r (gridStepsTakenSoFar s) ->
  stepFrom r = stepTo step -> stepTo r = stepFrom step ->
  stepFrom step <> stepTo step ->
  In r (gridStepsTakenSoFar (onComplete step now s)).
Proof.
  intros Hin Hf Ht Hne. unfold onComplete; simpl.
  unfold addToCollection, removeFromCollection. apply in_or_app. left.
  destruct (onComplete_predicates_same_direction step r) as [P1 P2].
  assert (K0 : GridWalkerStepInfo_eqb step r = false).
  { unfold GridWalkerStepInfo_eqb.
    destruct (GridIndices_eqb (stepFrom step) (stepFrom r)) eqn:E; [|reflexivity].
    apply GridIndices_eqb_eq in E. congruence. }
  assert (K1 : String.eqb (constructLineFromToKey (stepFrom r) (stepTo r))
                 (constructLineFromToKey (stepFrom step) (stepTo step)) = false).
  { apply not_true_is_false. intros E. apply P1 in E. destruct E. congruence. }
  assert (K2 : String.eqb (constructLineFromToKey (stepTo r) (stepFrom r))
                 (constructLineFromToKey (stepTo step) (stepFrom step)) = false).
  { apply not_true_is_false. intros E. apply P2 in E. destruct E. congruence. }
  apply removeFirstFound_keeps; [|exact K2].
  apply removeFirstFound_keeps; [|exact K1].
  apply removeFirstFound_keeps; [assumption|exact K0].
Qed.

(** C5.  The claim fails on the code.  Two neighbouring walkers swap
    places; when the tween of the second walker completes, the history
    holds the completed record of the first walker over the same pair of
    cells, in the opposite direction, and [onComplete] leaves it there:
    the history ends with both records. *)
Theorem completion_leaves_reverse_record :
  gridStepsTakenSoFar (run twoWalkersSwap initialState)
  = [ mkGridWalkerStepInfo (mkGridIndices 1 0) (mkGridIndices 0 0) StepDir.Left "b" None;
      mkGridWalkerStepInfo (mkGridIndices 0 0) (mkGridIndices 1 0) StepDir.Right "a" (Some 1) ]
  /\ nth_error (activeTweens (run twoWalkersSwap initialState)) 0
     = Some (mkGridWalkerStepInfo (mkGridIndices 1 0) (mkGridIndices 0 0) StepDir.Left "b" None)
  /\ gridStepsTakenSoFar (step (AnimationComplete 0 2) (run twoWalkersSwap initialState))
     = [ mkGridWalkerStepInfo (mkGridIndices 0 0) (mkGridIndices 1 0) StepDir.Right "a" (Some 1);
         mkGridWalkerStepInfo (mkGridIndices 1 0) (mkGridIndices 0 0) StepDir.Left "b" (Some 2) ].
Proof. vm_compute. repeat split. Qed.

(** ** The claims that fail, at concrete scenarios *)



(** C4, as stated, fails.  Two walkers placed at (0,0) and (2,0) both
    step onto (1,0) during the run: the registry then has two distinct
    walkers at that cell. *)
Lemma two_walkers_on_one_cell_during_run :
  instructionsState (run twoWalkersMeet initialState) = InstructionsState.Running
  /\ walkersAt (mkGridIndices 1 0) (gridWalkers (run twoWalkersMeet initialState))
     = [ mkGridWalker (mkGridIndices 1 0) "a" false;
         mkGridWalker (mkGridIndices 1 0) "b" false ].
Proof. vm_compute. repeat split. Qed.


(** ** The theorems at concrete scenarios *)

Ltac otherKey :=
  let k := fresh "k" in
  let E := fresh "E" in
  let L := fresh "L" in
  intros (k & E & L); inversion E; subst; vm_compute in L; discriminate L.

(** The second record of the cornered walker, (1,1) -> (1,0), Up. *)
Lemma step_records_direction_consistent_witness :
  directionConsistent
    (mkGridWalkerStepInfo (mkGridIndices 1 1) (mkGridIndices 1 0) StepDir.Up "c" (Some 2)).
Proof.
  apply (step_records_direction_consistent walkerCornered).
  left. vm_compute. right. left. reflexivity.
Defined.

(** Reset of a paused run, and reset of the initial state. *)
Lemma reset_clears_and_is_idempotent_witness :
  (gridWalkers (keyDownListener "E" (run pausedMidFlight initialState)) = []
   /\ gridStepsTakenSoFar (keyDownListener "E" (run pausedMidFlight initialState)) = []
   /\ walkersTakingNextStep (keyDownListener "E" (run pausedMidFlight initialState)) = []
   /\ walkersFinishingSteps (keyDownListener "E" (run pausedMidFlight initialState)) = []
   /\ instructionsState (keyDownListener "E" (run pausedMidFlight initialState))
      = InstructionsState.NoExtantWalker)
  /\ (keyDownListener "E" initialState = initialState
      /\ keyDownListener "E" (keyDownListener "E" initialState) = initialState).
Proof.
  split.
  - apply (reset_clears_and_is_idempotent "E" (run pausedMidFlight initialState));
      vm_compute; [reflexivity | discriminate | discriminate].
  - apply (reset_clears_and_is_idempotent "E" initialState); reflexivity.
Defined.

(** A click on the free point (5,5) while the walker at (4,4) is selected. *)
Lemma click_free_point_while_removal_pending_witness :
  gridWalkers (step (Click (mkGridIndices 5 5) "f") (run removalPending initialState))
  = gridWalkers (run removalPending initialState) ++ [mkGridWalker (mkGridIndices 5 5) "f" false]
  /\ gridEditFocus (step (Click (mkGridIndices 5 5) "f") (run removalPending initialState))
     = Some (mkGridIndices 5 5)
  /\ instructionsState (step (Click (mkGridIndices 5 5) "f") (run removalPending initialState))
     = InstructionsState.GridWalkerRemoval.
Proof.
  apply (click_free_point_while_removal_pending (run removalPending initialState)
           (mkGridIndices 5 5) "f"); vm_compute; reflexivity.
Defined.

(** Reset of a run, then a new walker and a new start. *)
Lemma reset_keeps_stepping_flag_witness :
  stepping (run walkerCornered initialState) = true
  /\ instructionsState (keyDownListener "e" (run walkerCornered initialState))
     = InstructionsState.NoExtantWalker
  /\ stepping (keyDownListener "e" (run walkerCornered initialState)) = true
  /\ stepping
       (run [Render; Click (mkGridIndices 3 3) "d"; Render; KeyDown "s"; Render]
          (keyDownListener "e" (run walkerCornered initialState))) = true.
Proof.
  apply (reset_keeps_stepping_flag walkerCornered
           [Render; Click (mkGridIndices 3 3) "d"; Render; KeyDown "s"; Render] "e").
  - reflexivity.
  - vm_compute. reflexivity.
  - repeat (apply Forall_cons; [otherKey|]). apply Forall_nil.
Defined.



(** Two walkers placed, one selected for removal, the selection cancelled. *)
Lemma one_walker_per_cell_before_start_witness :
  (List.length
     (walkersAt (mkGridIndices 4 4)
        (gridWalkers (run (removalPending ++ [KeyDown "Escape"; Render]) initialState)))
   <= 1)%nat.
Proof.
  apply (one_walker_per_cell_before_start (removalPending ++ [KeyDown "Escape"; Render])
           (mkGridIndices 4 4)).
  simpl. repeat (apply Forall_cons; [otherKey|]). apply Forall_nil.
Defined.


(** * More of the component *)

(** ** The key of a line *)

(** X1.  [constructLineFromToKey] gives two lines the same key exactly
    when they have the same from-cell and the same to-cell. *)
Theorem constructLineFromToKey_unique :
  forall (lineFrom lineTo lineFrom' lineTo' : GridIndices),
    constructLineFromToKey lineFrom lineTo = constructLineFromToKey lineFrom' lineTo'
    <-> lineFrom = lineFrom' /\ lineTo = lineTo'.
Proof.
  intros f t f' t'. split.
  - apply constructLineFromToKey_inj.
  - intros [-> ->]. reflexivity.
Qed.

(** ** What a completion does to the history *)

Lemma removeFirstFound_length {T : Type} (p : T -> bool) (c : list T) :
  (List.length c <= S (List.length (removeFirstFoundFromCollection p c)))%nat
  /\ (List.length (removeFirstFoundFromCollection p c) <= List.length c)%nat.
Proof.
  induction c as [|y c IH]; simpl; [lia|]. destruct (p y); simpl; lia.
Qed.

(** X2.  [onComplete] adds the completed record at the end of the history
    and adds nothing else; it removes at most three records, and never a
    record that goes from another cell or to another cell than the
    completed step. *)
Theorem onComplete_touches_only_its_line :
  forall (stepToAnimate : GridWalkerStepInfo) (now : Z) (s : GridState),
    (exists kept,
        gridStepsTakenSoFar (onComplete stepToAnimate now s)
        = kept ++ [completedAt stepToAnimate now]
        /\ (forall r, In r kept -> In r (gridStepsTakenSoFar s))
        /\ (List.length (gridStepsTakenSoFar s) <= 3 + List.length kept)%nat)
    /\ (forall r,
          In r (gridStepsTakenSoFar s) ->
          stepFrom r <> stepFrom stepToAnimate \/ stepTo r <> stepTo stepToAnimate ->
          In r (gridStepsTakenSoFar (onComplete stepToAnimate now s))).
Proof.
  intros step now s. unfold onComplete; simpl.
  unfold addToCollection, removeFromCollection, completedAt. split.
  - eexists. split; [reflexivity|]. split.
    + intros r Hr. repeat apply removeFirstFound_incl in Hr. assumption.
    + repeat match goal with
             | |- context [removeFirstFoundFromCollection ?p ?c] =>
                 lazymatch goal with
                 | H : (List.length c <= S (List.length (removeFirstFoundFromCollection p c)))%nat |- _ => fail
                 | _ => destruct (removeFirstFound_length p c) as [? _]
                 end
             end.
      lia.
  - intros r Hin Hne. apply in_or_app. left.
    destruct (onComplete_predicates_same_direction step r) as [P1 P2].
    apply removeFirstFound_keeps; [apply removeFirstFound_keeps; [apply removeFirstFound_keeps|]|].
    + assumption.
    + unfold GridWalkerStepInfo_eqb.
      destruct (GridIndices_eqb (stepFrom step) (stepFrom r)) eqn:Ef; [|reflexivity].
      destruct (GridIndices_eqb (stepTo step) (stepTo r)) eqn:Et; [|reflexivity].
      apply GridIndices_eqb_eq in Ef, Et. destruct Hne; congruence.
    + apply not_true_is_false. intros E. apply P1 in E. tauto.
    + apply not_true_is_false. intros E. apply P2 in E. tauto.
Qed.

(** ** Walkers and records stay inside the grid *)

Lemma keyDownListener_walkers key s :
  (gridWalkers (keyDownListener key s) = gridWalkers s
   \/ gridWalkers (keyDownListener key s) = [])
  /\ (walkersTakingNextStep (keyDownListener key s) = walkersTakingNextStep s
      \/ walkersTakingNextStep (keyDownListener key s) = []
      \/ walkersTakingNextStep (keyDownListener key s)
         = walkersTakingNextStep s ++ gridWalkers s)
  /\ latestWalkerAdded (keyDownListener key s) = latestWalkerAdded s.
Proof.
  unfold keyDownListener.
  destruct (queueEveryWalker_fields (gridWalkers s) (setStepping true s))
    as (_ & E2 & E3 & _ & E5 & _).
  repeat match goal with
         | |- context [if ?c then _ else _] => destruct c
         end; simpl; rewrite ?E2, ?E3, ?E5; simpl; auto.
Qed.

Lemma takeNextSteps_holdsOnly (Q : GridWalker -> Prop) (P : GridWalkerStepInfo -> Prop)
    history randoms queue s :
  (forall random w r, Q w -> walkerStep history random w = Some r -> P r) ->
  (forall w, Q w -> Q (mkGridWalker (onGridAt w) (walkerColor w) true)) ->
  Forall Q queue ->
  Forall Q (gridWalkers s) -> Forall P (gridStepsTakenSoFar s) ->
  Forall Q (gridWalkers (takeNextSteps history randoms queue s))
  /\ Forall P (gridStepsTakenSoFar (takeNextSteps history randoms queue s)).
Proof.
  intros Hstep Hfin Hqueue. revert randoms s.
  induction Hqueue as [|w queue Hw Hqueue IH]; intros randoms s Hreg Hhist; simpl; [auto|].
  apply IH; destruct (walkerStep history (hd 0%Q randoms) w) as [r|] eqn:E; simpl;
    unfold addToCollection, removeFromCollection; try assumption.
  - apply Forall_app. split; [apply removeFirstFound_Forall; assumption|].
    constructor; [auto | constructor].
  - apply Forall_app. split; [assumption|]. constructor; [eauto | constructor].
Qed.

Lemma finishSteps_holdsOnly (Q : GridWalker -> Prop) (P : GridWalkerStepInfo -> Prop)
    queue s :
  (forall r, P r -> Q (mkGridWalker (stepTo r) (lineColor r) false)) ->
  Forall P queue -> Forall Q (gridWalkers s) ->
  Forall Q (gridWalkers (finishSteps queue s)).
Proof.
  intros Hto Hqueue. revert s.
  induction Hqueue as [|r queue Hr Hqueue IH]; intros s Hreg; simpl; [assumption|].
  apply IH. simpl. unfold addToCollection, removeFromCollection.
  apply Forall_app. split; [apply removeFirstFound_Forall; assumption|].
  constructor; [auto | constructor].
Qed.

Lemma step_holdsOnly (Q : GridWalker -> Prop) (P : GridWalkerStepInfo -> Prop) e s :
  (forall history random w r, Q w -> walkerStep history random w = Some r -> P r) ->
  (forall r now, P r -> P (completedAt r now)) ->
  (forall r, P r -> Q (mkGridWalker (stepTo r) (lineColor r) false)) ->
  (forall w, Q w -> Q (mkGridWalker (onGridAt w) (walkerColor w) true)) ->
  (forall p c, e = Click p c -> Q (mkGridWalker p c false)) ->
  holdsOnly Q P s -> holdsOnly Q P (step e s).
Proof.
  intros Hstep Hdone Hto Hfin Hclick (Hl & Hreg & Hq & Hh & Hf & Ht). unfold holdsOnly.
  destruct e as [p c|key|tween now| |randoms|].
  - destruct (click_lifecycle p c s) as (_ & _ & Hnone).
    destruct (click_records p c s) as (E1 & E2 & E3 & _ & E5).
    rewrite Hnone, E1, E2, E3, E5. repeat split; auto.
    destruct (click_walkers p c s Hl) as [E|[E|E]]; rewrite E.
    + assumption.
    + apply removeFirstFound_Forall. assumption.
    + apply Forall_app. split; [apply removeFirstFound_Forall; assumption|].
      constructor; [eauto | constructor].
  - destruct (keyDownListener_walkers key s) as (K1 & K2 & K3).
    destruct (keyDownListener_records key s) as (K4 & K5 & K6).
    simpl. rewrite K3, K6. repeat split; auto.
    + destruct K1 as [E|E]; rewrite E; auto.
    + destruct K2 as [E|[E|E]]; rewrite E; auto. apply Forall_app. auto.
    + destruct K4 as [E|E]; rewrite E; auto.
    + destruct K5 as [E|E]; rewrite E; auto.
  - simpl. destruct (nth_error (activeTweens s) tween) as [r|] eqn:E;
      [|repeat split; assumption].
    destruct (onComplete_fields r now (updateActiveTweens (removeNth tween) s))
      as (_ & A2 & A3 & A4 & A5 & _ & _ & A8).
    rewrite A2, A3, A4, A5, A8. simpl. repeat split; auto.
    + apply onComplete_history_Forall; [assumption|].
      apply (Hdone r now). apply nth_error_In in E. rewrite Forall_forall in Ht. auto.
    + rewrite Forall_forall in *. intros x Hx. apply Ht. eapply removeNth_incl; eassumption.
  - simpl. destruct (renderEffect_fields s) as (_ & E2 & E3 & E4 & E5 & E6 & _ & _ & E9).
    rewrite E2, E3, E4, E5, E6, E9. repeat split; auto.
    + apply Forall_app. split; [assumption|]. repeat apply Forall_filter. assumption.
    + apply Forall_app. split; [assumption|].
      destruct (stepping s); [apply Forall_filter; assumption | constructor].
  - simpl. unfold walkersTakingNextStepEffect.
    destruct (0 <? List.length (walkersTakingNextStep s))%nat; [|repeat split; assumption].
    destruct (takeNextSteps_fields (gridStepsTakenSoFar s) randoms (walkersTakingNextStep s) s)
      as (_ & E2 & _ & E4 & _ & _ & E7).
    destruct (takeNextSteps_holdsOnly Q P (gridStepsTakenSoFar s) randoms
                (walkersTakingNextStep s) s) as (T1 & T2); auto.
    { intros random w r. apply Hstep. }
    simpl. rewrite E2, E4, E7. repeat split; auto.
  - simpl. unfold walkersFinishingStepsEffect.
    destruct (0 <? List.length (walkersFinishingSteps s))%nat; [|repeat split; assumption].
    destruct (finishSteps_fields (walkersFinishingSteps s) s)
      as (_ & E2 & E3 & _ & _ & _ & E7 & E8).
    simpl. rewrite E2, E3, E7, E8. repeat split; auto.
    + apply finishSteps_holdsOnly with (P := P); assumption.
    + apply Forall_app. split; [assumption|].
      rewrite Forall_forall in *. intros w Hw. apply in_map_iff in Hw.
      destruct Hw as (r & <- & Hr). auto.
Qed.

Lemma chooseNextStep_in_grid history random cell color chosen :
  chooseNextStep history random cell color = Some chosen -> inGridBounds (nextStep chosen).
Proof.
  unfold chooseNextStep. intros H. apply arrayAt_In in H.
  apply possibleNextSteps_legal in H. tauto.
Qed.

Lemma walkerStep_destination history random w r :
  walkerStep history random w = Some r -> inGridBounds (stepTo r).
Proof.
  unfold walkerStep.
  destruct (chooseNextStep history random (onGridAt w) (walkerColor w)) as [ns|] eqn:E;
    [|discriminate].
  intros H; inversion H; subst; simpl. eapply chooseNextStep_in_grid; eassumption.
Qed.

(** X3.  Whatever is clicked and in whatever order the events come, the
    destination of every step record the component holds (history, queue
    of finished steps, running tweens) is a cell inside the grid. *)
Theorem step_destinations_inside_grid :
  forall (events : list Event) (r : GridWalkerStepInfo),
    In r (gridStepsTakenSoFar (run events initialState))
    \/ In r (walkersFinishingSteps (run events initialState))
    \/ In r (activeTweens (run events initialState)) ->
    inGridBounds (stepTo r).
Proof.
  intros events r Hr.
  assert (Hinv : holdsOnly (fun _ => True) (fun r => inGridBounds (stepTo r))
                   (run events initialState)).
  { apply run_invariant.
    - intros e s. apply step_holdsOnly; auto.
      intros history random w r0 _. apply walkerStep_destination.
    - unfold holdsOnly, initialState; simpl. repeat split; constructor. }
  destruct Hinv as (_ & _ & _ & Hh & Hf & Ht). rewrite Forall_forall in Hh, Hf, Ht.
  destruct Hr as [Hr|[Hr|Hr]]; auto.
Qed.

(** X4.  When every click lands on a point of the grid, no walker ever
    leaves the grid: in every state the cell of every walker of the
    registry, and of every walker queued for its next step, is inside the
    grid, and so are both cells of every step record of the history. *)
Theorem walkers_stay_inside_grid :
  forall (events : list Event),
    Forall clickInGrid events ->
    (forall w, In w (gridWalkers (run events initialState)) -> inGridBounds (onGridAt w))
    /\ (forall w, In w (walkersTakingNextStep (run events initialState)) ->
          inGridBounds (onGridAt w))
    /\ (forall r, In r (gridStepsTakenSoFar (run events initialState)) ->
          inGridBounds (stepFrom r) /\ inGridBounds (stepTo r)).
Proof.
  intros events Hclicks.
  assert (Hinv : holdsOnly (fun w => inGridBounds (onGridAt w))
                   (fun r => inGridBounds (stepFrom r) /\ inGridBounds (stepTo r))
                   (run events initialState)).
  { assert (H0 : holdsOnly (fun w => inGridBounds (onGridAt w))
                   (fun r => inGridBounds (stepFrom r) /\ inGridBounds (stepTo r))
                   initialState)
      by (unfold holdsOnly, initialState; simpl; repeat split; constructor).
    revert H0. generalize initialState.
    induction Hclicks as [|e events He Hclicks IH]; intros s Hs; simpl; [assumption|].
    apply IH. apply step_holdsOnly; auto.
    - intros history random w r Hw Hr. split.
      + destruct (walkerStep_record _ _ _ _ Hr) as (_ & -> & _). assumption.
      + eapply walkerStep_destination; eassumption.
    - intros r [_ Hto]. exact Hto.
    - intros p c ->. exact He. }
  destruct Hinv as (_ & Hreg & Hq & Hh & _ & _). rewrite Forall_forall in Hreg, Hq, Hh.
  auto.
Qed.

(** ** What the effect on the queue of walkers does for each walker *)





Lemma filter_removeFirstFound_le {T : Type} (f p : T -> bool) (l : list T) :
  (List.length (filter f (removeFirstFoundFromCollection p l))
   <= List.length (filter f l))%nat.
Proof.
  induction l as [|y l IH]; simpl; [lia|].
  destruct (p y); simpl; destruct (f y); simpl; lia.
Qed.

Lemma takeNextSteps_activeWalkers history randoms queue s :
  activeWalkers (gridWalkers (takeNextSteps history randoms queue s))
  <= activeWalkers (gridWalkers s).
Proof.
  revert randoms s. induction queue as [|w queue IH]; intros randoms s; simpl; [lia|].
  etransitivity; [apply IH|].
  destruct (walkerStep history (hd 0%Q randoms) w); simpl; [lia|].
  unfold activeWalkers, size, addToCollection, removeFromCollection.
  rewrite filter_app, length_app. simpl.
  pose proof (filter_removeFirstFound_le (fun w0 => negb (finishedWalk w0))
                (GridWalker_eqb w) (gridWalkers s)).
  lia.
Qed.

(** X6.  Taking next steps never raises the number shown as "walkers
    active": the effect on the queue of walkers only ever replaces a
    walker by its finished version. *)
Theorem taking_next_steps_never_adds_active_walkers :
  forall (randoms : list Q) (s : GridState),
    activeWalkers (gridWalkers (walkersTakingNextStepEffect randoms s))
    <= activeWalkers (gridWalkers s).
Proof.
  intros randoms s. unfold walkersTakingNextStepEffect.
  destruct (0 <? List.length (walkersTakingNextStep s))%nat; [|lia].
  simpl. apply takeNextSteps_activeWalkers.
Qed.

(** ** The keyboard and the lifecycle *)

(** X7.  Pause and resume undo each other: in a running state, the pause
    key followed by the resume key gives back the very same state. *)
Theorem pause_then_resume_restores_state :
  forall (events : list Event) (pauseKey resumeKey : string),
    toLowerCase pauseKey = "p"%string ->
    toLowerCase resumeKey = "r"%string ->
    instructionsState (run events initialState) = InstructionsState.Running ->
    keyDownListener resumeKey (keyDownListener pauseKey (run events initialState))
    = run events initialState.
Proof.
  intros events kp kr Hp Hr Hrun.
  destruct (reachable_lifecycleInvariant events) as (_ & Hstep & _).
  specialize (Hstep Hrun). revert Hrun Hstep.
  generalize (run events initialState). intros s Hrun Hstep.
  destruct s; simpl in *. subst.
  unfold keyDownListener. rewrite Hp. simpl. rewrite Hr. reflexivity.
Qed.

Lemma keyDownListener_frame key s :
  toLowerCase key <> "e"%string ->
  gridWalkers (keyDownListener key s) = gridWalkers s
  /\ gridStepsTakenSoFar (keyDownListener key s) = gridStepsTakenSoFar s
  /\ walkersFinishingSteps (keyDownListener key s) = walkersFinishingSteps s
  /\ activeTweens (keyDownListener key s) = activeTweens s
  /\ gridEditFocus (keyDownListener key s) = gridEditFocus s.
Proof.
  intros Hkey. unfold keyDownListener.
  destruct (queueEveryWalker_fields (gridWalkers s) (setStepping true s))
    as (_ & E2 & _ & E4 & _ & E6 & E7 & _ & E9).
  destruct (String.eqb (toLowerCase key) "e") eqn:Ee;
    [apply String.eqb_eq in Ee; contradiction|].
  repeat match goal with
         | |- context [if ?c then _ else _] => destruct c
         end; simpl; rewrite ?E2, ?E4, ?E6, ?E7, ?E9; simpl; auto.
Qed.

(** X8.  Only the reset key makes the keyboard touch the walkers or the
    lines: any other key leaves the registry, the step history, the queue
    of finished steps, the running tweens and the edit focus as they
    were. *)
Theorem only_reset_key_changes_walkers_and_history :
  forall (key : string) (s : GridState),
    toLowerCase key <> "e"%string ->
    gridWalkers (keyDownListener key s) = gridWalkers s
    /\ gridStepsTakenSoFar (keyDownListener key s) = gridStepsTakenSoFar s
    /\ walkersFinishingSteps (keyDownListener key s) = walkersFinishingSteps s
    /\ activeTweens (keyDownListener key s) = activeTweens s
    /\ gridEditFocus (keyDownListener key s) = gridEditFocus s.
Proof. intros key s. apply keyDownListener_frame. Qed.

Lemma animateSteps_not_stepping l s : animateSteps false l s = s.
Proof. induction l as [|x l IH]; simpl; auto. Qed.

Lemma queueFinishedSteps_not_stepping walkers l s :
  queueFinishedSteps walkers false l s = s.
Proof.
  induction l as [|x l IH]; simpl; [reflexivity|]. rewrite andb_false_r. exact IH.
Qed.

(** X9.  While the lifecycle is Paused a render pass does nothing to the
    state: it creates no tween and queues no finished step. *)
Theorem render_while_paused_changes_nothing :
  forall (events : list Event),
    instructionsState (run events initialState) = InstructionsState.Paused ->
    step Render (run events initialState) = run events initialState.
Proof.
  intros events Hpaused.
  destruct (reachable_lifecycleInvariant events) as (_ & _ & Hstep).
  specialize (Hstep Hpaused). simpl. unfold renderEffect. rewrite Hstep.
  rewrite animateSteps_not_stepping. apply queueFinishedSteps_not_stepping.
Qed.

Lemma effects_keep_lifecycle e s :
  (forall p c, e <> Click p c) -> (forall key, e <> KeyDown key) ->
  instructionsState (step e s) = instructionsState s.
Proof.
  intros Hc Hk. destruct e as [p c|key|tween now| |randoms|].
  - exfalso. exact (Hc p c eq_refl).
  - exfalso. exact (Hk key eq_refl).
  - simpl. destruct (nth_error (activeTweens s) tween); reflexivity.
  - simpl. apply renderEffect_fields.
  - simpl. unfold walkersTakingNextStepEffect.
    destruct (0 <? _)%nat; [|reflexivity]. simpl. apply takeNextSteps_fields.
  - simpl. unfold walkersFinishingStepsEffect.
    destruct (0 <? _)%nat; [|reflexivity]. simpl. apply finishSteps_fields.
Qed.

Lemma keyDownListener_start key s :
  toLowerCase key = "s"%string -> ~ inRun s -> inRun (keyDownListener key s) ->
  instructionsState s = InstructionsState.AtLeastOneExtantWalker
  /\ instructionsState (keyDownListener key s) = InstructionsState.Running
  /\ stepping (keyDownListener key s) = true
  /\ walkersTakingNextStep (keyDownListener key s)
     = walkersTakingNextStep s ++ gridWalkers s.
Proof.
  intros Hkey Hout. unfold keyDownListener. rewrite Hkey. simpl.
  destruct (queueEveryWalker_fields (gridWalkers s) (setStepping true s))
    as (_ & _ & _ & _ & E5 & _ & _ & E8 & _).
  destruct (instructionsState s) eqn:Hst; simpl; intros Hin; try contradiction.
  rewrite E5, E8. auto.
Qed.

(** X10.  A run is entered only by the start key, pressed in the state
    AtLeastOneExtantWalker, which sets the stepping flag and queues every
    walker of the registry; and it is left only by the reset key, which
    empties the registry. *)
Theorem run_entered_by_start_and_left_by_reset :
  forall (e : Event) (s : GridState),
    (~ inRun s -> inRun (step e s) ->
     isKey "s" e
     /\ instructionsState s = InstructionsState.AtLeastOneExtantWalker
     /\ instructionsState (step e s) = InstructionsState.Running
     /\ stepping (step e s) = true
     /\ walkersTakingNextStep (step e s) = walkersTakingNextStep s ++ gridWalkers s)
    /\ (inRun s -> ~ inRun (step e s) ->
        isKey "e" e
        /\ instructionsState (step e s) = InstructionsState.NoExtantWalker
        /\ gridWalkers (step e s) = []).
Proof.
  intros e s. split.
  - intros Hout Hin. destruct e as [p c|key|tween now| |randoms|];
      try (exfalso; apply Hout; unfold inRun in *;
           rewrite effects_keep_lifecycle in Hin by (intros; discriminate);
           exact Hin).
    + exfalso. destruct (click_lifecycle p c s) as (_ & H & _). exact (H Hout Hin).
    + destruct (String.eqb (toLowerCase key) "s") eqn:Es.
      * apply String.eqb_eq in Es. split; [exists key; auto|].
        apply keyDownListener_start; assumption.
      * exfalso. destruct (keyDownListener_editing key s) as (H & _); auto.
        intros E. rewrite E in Es. discriminate.
  - intros Hin Hout. destruct e as [p c|key|tween now| |randoms|];
      try (exfalso; apply Hout; unfold inRun in *;
           rewrite effects_keep_lifecycle by (intros; discriminate);
           exact Hin).
    + exfalso. apply Hout. destruct (click_lifecycle p c s) as (H & _ & _).
      unfold inRun in *. rewrite (H Hin). exact Hin.
    + destruct (String.eqb (toLowerCase key) "e") eqn:Ee.
      * apply String.eqb_eq in Ee. split; [exists key; auto|].
        destruct (keyDownListener_reset key s Ee) as (R1 & _ & _ & _ & R5 & _).
        { destruct Hin as [E|E]; rewrite E; discriminate. }
        { destruct Hin as [E|E]; rewrite E; discriminate. }
        auto.
      * exfalso. apply Hout. destruct (keyDownListener_in_run key s) as (H & _); auto.
        intros E. rewrite E in Ee. discriminate.
Qed.

(** ** Placing and removing walkers *)

Lemma find_at_last {T : Type} (p : T -> bool) (l : list T) (w : T) :
  find p l = None -> p w = true -> find p (l ++ [w]) = Some w.
Proof.
  induction l as [|y l IH]; simpl; intros Hnone Hw.
  - rewrite Hw. reflexivity.
  - destruct (p y); [discriminate | auto].
Qed.

Lemma removeFirstFound_at_last {T : Type} (p : T -> bool) (l : list T) (w : T) :
  find p l = None -> p w = true -> removeFirstFoundFromCollection p (l ++ [w]) = l.
Proof.
  induction l as [|y l IH]; simpl; intros Hnone Hw.
  - rewrite Hw. reflexivity.
  - destruct (p y); [discriminate|]. rewrite IH; auto.
Qed.

Lemma walkersAt_occupied_find p walkers :
  walkersAt p walkers <> [] ->
  exists w, find (fun w => GridIndices_eqb p (onGridAt w)) walkers = Some w.
Proof.
  unfold walkersAt. induction walkers as [|y walkers IH]; simpl; [congruence|].
  destruct (GridIndices_eqb p (onGridAt y)); eauto.
Qed.

Lemma size_one_more {T : Type} (l : list T) (x : T) :
  (size (l ++ [x]) =? 1) = negb (isNonEmpty l).
Proof.
  unfold size. rewrite length_app. destruct l as [|y l]; [reflexivity|].
  cbn [isNonEmpty negb List.length]. apply Z.eqb_neq. lia.
Qed.

Lemma click_free_point_state p c s :
  ~ inRun s -> walkersAt p (gridWalkers s) = [] ->
  step (Click p c) s
  = mkGridState
      (if InstructionsState.eqb (instructionsState s) InstructionsState.NoExtantWalker
       then InstructionsState.AtLeastOneExtantWalker else instructionsState s)
      (gridWalkers s ++ [mkGridWalker p c false]) None (gridStepsTakenSoFar s)
      (walkersTakingNextStep s) (walkersFinishingSteps s) (Some p) (stepping s)
      (activeTweens s).
Proof.
  intros Hout Hfree. apply walkersAt_nil_find in Hfree.
  assert (Hrm : removeFirstFoundFromCollection
                  (fun other =>
                     (widthIntervalIndex p =? widthIntervalIndex (onGridAt other))
                     && (heightIntervalIndex p =? heightIntervalIndex (onGridAt other)))
                  (gridWalkers s) = gridWalkers s)
    by (apply removeFirstFound_none; exact Hfree).
  unfold step, pointEntityType, returnFirstOccurrenceIfFound. rewrite Hfree. simpl.
  unfold handleClickingOnPointShape, inRun in *.
  destruct (instructionsState s) eqn:Hst;
    try (exfalso; apply Hout; auto; fail);
    simpl; unfold latestWalkerAddedEffect; simpl; rewrite Hst; simpl;
    unfold setInstructionsState, setLatestWalkerAdded, addGridWalker,
      removeFirstMatchingGridWalker, updateGridWalkers, setGridEditFocus, addToCollection;
    simpl; rewrite Hrm, ?Hst; reflexivity.
Qed.

Lemma click_walker_selects p c s :
  latestWalkerAdded s = None ->
  instructionsState s = InstructionsState.NoExtantWalker
  \/ instructionsState s = InstructionsState.AtLeastOneExtantWalker ->
  walkersAt p (gridWalkers s) <> [] ->
  step (Click p c) s
  = setGridEditFocus (Some p)
      (setInstructionsState InstructionsState.GridWalkerRemoval s).
Proof.
  intros Hl Hst Hocc. destruct (walkersAt_occupied_find _ _ Hocc) as (w & Hw).
  unfold step, pointEntityType, returnFirstOccurrenceIfFound.
  change (find (fun w0 => (widthIntervalIndex p =? widthIntervalIndex (onGridAt w0))
                          && (heightIntervalIndex p =? heightIntervalIndex (onGridAt w0)))
            (gridWalkers s))
    with (find (fun w0 => GridIndices_eqb p (onGridAt w0)) (gridWalkers s)).
  rewrite Hw. simpl. unfold handleClickingOnPointShape.
  destruct Hst as [Hst|Hst]; rewrite Hst; simpl;
    unfold latestWalkerAddedEffect; simpl; rewrite Hl; reflexivity.
Qed.

Lemma click_focus_removes p c s :
  latestWalkerAdded s = None ->
  instructionsState s = InstructionsState.GridWalkerRemoval ->
  gridEditFocus s = Some p ->
  walkersAt p (gridWalkers s) <> [] ->
  step (Click p c) s
  = setInstructionsState
      (if size (gridWalkers s) =? 1
       then InstructionsState.NoExtantWalker
       else InstructionsState.AtLeastOneExtantWalker)
      (setGridEditFocus None
         (removeFirstMatchingGridWalker (fun w => GridIndices_eqb p (onGridAt w)) s)).
Proof.
  intros Hl Hst Hfocus Hocc. destruct (walkersAt_occupied_find _ _ Hocc) as (w & Hw).
  unfold step, pointEntityType, returnFirstOccurrenceIfFound.
  change (find (fun w0 => (widthIntervalIndex p =? widthIntervalIndex (onGridAt w0))
                          && (heightIntervalIndex p =? heightIntervalIndex (onGridAt w0)))
            (gridWalkers s))
    with (find (fun w0 => GridIndices_eqb p (onGridAt w0)) (gridWalkers s)).
  rewrite Hw. simpl. unfold handleClickingOnPointShape.
  rewrite Hst, Hfocus. simpl. rewrite !Z.eqb_refl. simpl.
  unfold latestWalkerAddedEffect. simpl. rewrite Hl. reflexivity.
Qed.

(** X11.  Adding a walker and deleting it again is a round trip.  From
    NoExtantWalker or AtLeastOneExtantWalker, three clicks on a free point
    (add the walker, select it, confirm) give back the registry as it was,
    with no edit focus; the lifecycle is AtLeastOneExtantWalker when other
    walkers exist and NoExtantWalker when none does, and history, queues,
    stepping flag and tweens are untouched. *)
Theorem add_then_delete_walker_round_trip :
  forall (s : GridState) (p : GridIndices) (c1 c2 c3 : string),
    instructionsState s = InstructionsState.NoExtantWalker
    \/ instructionsState s = InstructionsState.AtLeastOneExtantWalker ->
    walkersAt p (gridWalkers s) = [] ->
    step (Click p c3) (step (Click p c2) (step (Click p c1) s))
    = mkGridState
        (if isNonEmpty (gridWalkers s)
         then InstructionsState.AtLeastOneExtantWalker
         else InstructionsState.NoExtantWalker)
        (gridWalkers s) None (gridStepsTakenSoFar s) (walkersTakingNextStep s)
        (walkersFinishingSteps s) None (stepping s) (activeTweens s).
Proof.
  intros s p c1 c2 c3 Hst Hfree.
  assert (Hout : ~ inRun s).
  { unfold inRun. destruct Hst as [E|E]; rewrite E; intros [?|?]; discriminate. }
  rewrite (click_free_point_state p c1 s Hout Hfree).
  pose proof (walkersAt_nil_find _ _ Hfree) as Hnone.
  assert (Hat : GridIndices_eqb p (onGridAt (mkGridWalker p c1 false)) = true)
    by (apply GridIndices_eqb_eq; reflexivity).
  assert (Hocc : walkersAt p (gridWalkers s ++ [mkGridWalker p c1 false]) <> []).
  { rewrite walkersAt_app, Hfree. unfold walkersAt, GridIndices_eqb. simpl.
    rewrite !Z.eqb_refl. discriminate. }
  match goal with
  | |- step _ (step _ ?s1) = _ =>
      rewrite (click_walker_selects p c2 s1 eq_refl);
        [ | destruct Hst as [E|E]; rewrite E; simpl; auto | exact Hocc ]
  end.
  match goal with
  | |- step _ ?s2 = _ =>
      rewrite (click_focus_removes p c3 s2 eq_refl eq_refl eq_refl Hocc)
  end.
  unfold removeFirstMatchingGridWalker, updateGridWalkers, setGridEditFocus,
    setInstructionsState.
  cbn [instructionsState gridWalkers latestWalkerAdded gridStepsTakenSoFar
       walkersTakingNextStep walkersFinishingSteps gridEditFocus stepping activeTweens].
  change (fun w => GridIndices_eqb p (onGridAt w))
    with (fun w => (widthIntervalIndex p =? widthIntervalIndex (onGridAt w))
                   && (heightIntervalIndex p =? heightIntervalIndex (onGridAt w))).
  rewrite (removeFirstFound_at_last _ _ _ Hnone Hat).
  rewrite size_one_more.
  destruct (gridWalkers s); reflexivity.
Qed.

(** X12.  Selecting a walker and cancelling removes nothing: in
    AtLeastOneExtantWalker, a click on an occupied point moves the
    lifecycle to GridWalkerRemoval with that point as the edit focus, and
    the cancel key then brings the lifecycle back to
    AtLeastOneExtantWalker with the registry as it was. *)
Theorem select_then_cancel_keeps_walker :
  forall (events : list Event) (p : GridIndices) (c key : string),
    toLowerCase key = "escape"%string ->
    instructionsState (run events initialState) = InstructionsState.AtLeastOneExtantWalker ->
    walkersAt p (gridWalkers (run events initialState)) <> [] ->
    instructionsState (step (Click p c) (run events initialState))
    = InstructionsState.GridWalkerRemoval
    /\ gridEditFocus (step (Click p c) (run events initialState)) = Some p
    /\ step (KeyDown key) (step (Click p c) (run events initialState))
       = setGridEditFocus (Some p) (run events initialState).
Proof.
  intros events p c key Hkey Hst Hocc.
  destruct (reachable_lifecycleInvariant events) as (Hl & _ & _).
  rewrite click_walker_selects; auto. simpl. split; [reflexivity|]. split; [reflexivity|].
  unfold keyDownListener. rewrite Hkey. simpl.
  revert Hst Hocc. generalize (run events initialState). intros s Hst Hocc.
  destruct s as [st R l h tq fq f stp tw]; simpl in *. subst st.
  destruct R; [exfalso; apply Hocc; reflexivity | reflexivity].
Qed.

Lemma click_other_walker_ignored p c s :
  latestWalkerAdded s = None ->
  instructionsState s = InstructionsState.GridWalkerRemoval ->
  gridEditFocus s <> Some p ->
  walkersAt p (gridWalkers s) <> [] ->
  step (Click p c) s = s.
Proof.
  intros Hl Hst Hfocus Hocc. destruct (walkersAt_occupied_find _ _ Hocc) as (w & Hw).
  unfold step, pointEntityType, returnFirstOccurrenceIfFound.
  change (find (fun w0 => (widthIntervalIndex p =? widthIntervalIndex (onGridAt w0))
                          && (heightIntervalIndex p =? heightIntervalIndex (onGridAt w0)))
            (gridWalkers s))
    with (find (fun w0 => GridIndices_eqb p (onGridAt w0)) (gridWalkers s)).
  rewrite Hw. simpl. unfold handleClickingOnPointShape. rewrite Hst. simpl.
  destruct (gridEditFocus s) as [f|] eqn:Ef.
  - destruct ((widthIntervalIndex f =? widthIntervalIndex p)
              && (heightIntervalIndex f =? heightIntervalIndex p)) eqn:E.
    + exfalso. apply Hfocus. f_equal. apply GridIndices_eqb_eq. exact E.
    + unfold latestWalkerAddedEffect. rewrite Hl. reflexivity.
  - unfold latestWalkerAddedEffect. rewrite Hl. reflexivity.
Qed.

Lemma walkersAt_occupied_nonempty p walkers : walkersAt p walkers <> [] -> walkers <> [].
Proof. intros H E. apply H. rewrite E. reflexivity. Qed.

Lemma GridIndices_eq_dec (a b : GridIndices) : a = b \/ a <> b.
Proof.
  destruct (GridIndices_eqb a b) eqn:E.
  - left. apply GridIndices_eqb_eq. exact E.
  - right. intros H. apply GridIndices_eqb_eq in H. congruence.
Qed.

Lemma step_editLifecycle e s :
  ~ isKey "s" e -> editLifecycle s -> editLifecycle (step e s).
Proof.
  intros Hkey [Hinv Hiff]. split; [apply step_editInvariant; assumption|].
  destruct Hinv as (Hl & Hrun & Hh & Ht & Hq & Hf & _).
  destruct e as [p c|key|tween now| |randoms|].
  - destruct (walkersAt p (gridWalkers s)) as [|w0 ws] eqn:Eat.
    + rewrite (click_free_point_state p c s Hrun Eat). simpl. split.
      * destruct (instructionsState s); simpl; discriminate.
      * intros E. destruct (gridWalkers s); discriminate.
    + assert (Hocc : walkersAt p (gridWalkers s) <> []) by (rewrite Eat; discriminate).
      pose proof (walkersAt_occupied_nonempty _ _ Hocc) as Hne.
      destruct (instructionsState s) eqn:Hst.
      * exfalso. apply Hne. apply Hiff. reflexivity.
      * rewrite click_walker_selects by auto. simpl. split; [discriminate | contradiction].
      * destruct (gridEditFocus s) as [f|] eqn:Ef.
        -- destruct (GridIndices_eq_dec f p) as [->|Hfp].
           ++ rewrite click_focus_removes by auto. simpl. unfold size.
              destruct (gridWalkers s) as [|w1 [|w2 l]] eqn:ER; [contradiction| |].
              ** simpl. split; [intros _|reflexivity].
                 unfold walkersAt in Eat. simpl in Eat.
                 destruct (GridIndices_eqb p (onGridAt w1)); [reflexivity | discriminate].
              ** replace (Z.of_nat (List.length (w1 :: w2 :: l)) =? 1) with false
                   by (symmetry; apply Z.eqb_neq; simpl List.length; lia).
                 split; [discriminate|]. simpl.
                 destruct (GridIndices_eqb p (onGridAt w1)); [discriminate|].
                 destruct (GridIndices_eqb p (onGridAt w2)); discriminate.
           ++ rewrite click_other_walker_ignored; auto; [rewrite Hst; exact Hiff | congruence].
        -- rewrite click_other_walker_ignored; auto; [rewrite Hst; exact Hiff | congruence].
      * exfalso. apply Hrun. left. exact Hst.
      * exfalso. apply Hrun. right. exact Hst.
  - assert (Hs : String.eqb (toLowerCase key) "s" = false).
    { apply not_true_is_false. intros E. apply String.eqb_eq in E.
      apply Hkey. exists key. auto. }
    simpl. unfold keyDownListener. rewrite Hs. unfold inRun in Hrun.
    destruct (instructionsState s) eqn:Hst;
      try (exfalso; apply Hrun; auto; fail); simpl;
      repeat match goal with
             | |- context [if ?c then _ else _] => destruct c eqn:?
             end; simpl; rewrite ?Hst; try exact Hiff;
      try (split; reflexivity);
      try (split; [discriminate | intros E; apply Hiff in E; discriminate]).
    all: destruct (gridWalkers s); simpl in *; try discriminate;
      split; try reflexivity; try discriminate.
  - simpl. rewrite Ht. destruct tween; simpl; exact Hiff.
  - simpl. destruct (renderEffect_fields s) as (E1 & E2 & _). rewrite E1, E2. exact Hiff.
  - simpl. unfold walkersTakingNextStepEffect. rewrite Hq. simpl. exact Hiff.
  - simpl. unfold walkersFinishingStepsEffect. rewrite Hf. simpl. exact Hiff.
Qed.

(** X13.  Before the start key is first pressed, the lifecycle state
    tells whether any walker exists: it is NoExtantWalker exactly when the
    registry is empty. *)
Theorem no_walker_state_means_empty_registry :
  forall (events : list Event),
    Forall (fun e => ~ isKey "s" e) events ->
    (instructionsState (run events initialState) = InstructionsState.NoExtantWalker
     <-> gridWalkers (run events initialState) = []).
Proof.
  intros events Hevents.
  assert (Hinv : editLifecycle (run events initialState)).
  { assert (H0 : editLifecycle initialState).
    { unfold editLifecycle, editInvariant, initialState, inRun; simpl.
      repeat split; auto. intros [?|?]; discriminate. }
    revert H0. generalize initialState.
    induction Hevents as [|e events He Hevents IH]; intros s Hs; simpl; [assumption|].
    apply IH. apply step_editLifecycle; assumption. }
  apply Hinv.
Qed.

(** ** The points of the grid *)

Lemma mapToArrayNTimes_In {T : Type} (n : Z) (f : Z -> T) (x : T) :
  In x (mapToArrayNTimes n f) <-> exists i, 0 <= i < n /\ x = f i.
Proof.
  unfold mapToArrayNTimes. rewrite in_map_iff. split.
  - intros (k & <- & Hk). apply in_seq in Hk. exists (Z.of_nat k). split; [lia | reflexivity].
  - intros (i & Hi & ->). exists (Z.to_nat i). split.
    + rewrite Z2Nat.id by lia. reflexivity.
    + apply in_seq. lia.
Qed.

Lemma mapToArrayNTimes_at {T : Type} (n : Z) (f : Z -> T) (i : Z) :
  0 <= i < n -> arrayAt (mapToArrayNTimes n f) i = Some (f i).
Proof.
  intros Hi. unfold arrayAt, mapToArrayNTimes.
  destruct (i <? 0) eqn:E; [apply Z.ltb_lt in E; lia|].
  rewrite nth_error_map, nth_error_seq.
  destruct (Z.to_nat i <? Z.to_nat n)%nat eqn:El.
  - simpl. rewrite Z2Nat.id by lia. reflexivity.
  - apply Nat.ltb_ge in El. lia.
Qed.

Lemma NoDup_map_of_nat (l : list nat) : NoDup l -> NoDup (map Z.of_nat l).
Proof.
  induction 1 as [|x l Hx Hl IH]; simpl; constructor; [|assumption].
  intros Hin. apply in_map_iff in Hin. destruct Hin as (y & Hy & Hin).
  apply Nat2Z.inj in Hy. subst y. contradiction.
Qed.

Lemma pointsArray_In {Num : Type} (sw sh : Z -> Num) (pt : GridPoint Num) :
  In pt (pointsArray sw sh)
  <-> exists w h,
        (0 <= w < numVerticalLines /\ 0 <= h < numHorizontalLines)
        /\ pt = mkGridPoint (arrayAt widthIntervals w) (arrayAt heightIntervals h)
                  (arrayAt (scaledWidthIntervals sw) w)
                  (arrayAt (scaledHeightIntervals sh) h) (mkGridIndices w h).
Proof.
  unfold pointsArray.
  replace (List.length (scaledWidthIntervals sw) <? List.length (scaledHeightIntervals sh))%nat
    with false by reflexivity.
  unfold flatMapIndices. rewrite in_flat_map. split.
  - intros (k & Hk & Hpt). apply in_seq in Hk.
    unfold constrainByHeight in Hpt. apply mapToArrayNTimes_In in Hpt.
    destruct Hpt as (w & Hw & ->). exists w, (Z.of_nat k). split; [|reflexivity].
    split; [assumption|].
    replace (List.length (scaledHeightIntervals sh)) with (Z.to_nat numHorizontalLines) in Hk
      by reflexivity.
    lia.
  - intros (w & h & [Hw Hh] & ->). exists (Z.to_nat h). split.
    + apply in_seq.
      replace (List.length (scaledHeightIntervals sh)) with (Z.to_nat numHorizontalLines)
        by reflexivity.
      lia.
    + rewrite Z2Nat.id by lia. unfold constrainByHeight.
      apply mapToArrayNTimes_In. exists w. split; [assumption | reflexivity].
Qed.

(** X14.  The points drawn are exactly the cells of the grid, once each:
    no two points have the same indices, a cell has a point exactly when it
    is inside [[0, numVerticalLines) x [0, numHorizontalLines)], and every
    look-up of a position succeeds, the unscaled position of the point at
    (w, h) being (widthInterval * w, heightInterval * h). *)
Theorem pointsArray_is_the_grid :
  forall (Num : Type) (scaledWidthAt scaledHeightAt : Z -> Num),
    NoDup (map pointIndices (pointsArray scaledWidthAt scaledHeightAt))
    /\ (forall c,
          inGridBounds c
          <-> exists pt,
                In pt (pointsArray scaledWidthAt scaledHeightAt) /\ pointIndices pt = c)
    /\ (forall pt,
          In pt (pointsArray scaledWidthAt scaledHeightAt) ->
          pointX pt = Some (widthInterval * widthIntervalIndex (pointIndices pt))
          /\ pointY pt = Some (heightInterval * heightIntervalIndex (pointIndices pt))
          /\ scaledPointX pt = Some (scaledWidthAt (widthIntervalIndex (pointIndices pt)))
          /\ scaledPointY pt = Some (scaledHeightAt (heightIntervalIndex (pointIndices pt)))).
Proof.
  intros Num sw sh. split; [|split].
  - apply (NoDup_map_inv
             (fun c => widthIntervalIndex c + numVerticalLines * heightIntervalIndex c)).
    replace (map (fun c => widthIntervalIndex c + numVerticalLines * heightIntervalIndex c)
               (map pointIndices (pointsArray sw sh)))
      with (map Z.of_nat (seq 0 200)) by (vm_compute; reflexivity).
    apply NoDup_map_of_nat, seq_NoDup.
  - intros c. split.
    + intros Hc. eexists. split.
      * apply pointsArray_In. exists (widthIntervalIndex c), (heightIntervalIndex c).
        split; [exact Hc | reflexivity].
      * destruct c; reflexivity.
    + intros (pt & Hpt & <-). apply pointsArray_In in Hpt.
      destruct Hpt as (w & h & Hwh & ->). exact Hwh.
  - intros pt Hpt. apply pointsArray_In in Hpt.
    destruct Hpt as (w & h & [Hw Hh] & ->). simpl.
    unfold widthIntervals, heightIntervals, scaledWidthIntervals, scaledHeightIntervals.
    rewrite !mapToArrayNTimes_at by assumption. auto.
Qed.

(** ** Every legal candidate can be drawn *)





(** ** Walkers are not lost, and colours are not invented *)





(** X17.  No colour is invented: in every state, the colour of every
    walker of the registry and of every line of the history is the colour
    that [randomColor()] returned for some click of the events so far. *)
Theorem colours_come_from_clicks :
  forall (events : list Event),
    (forall w, In w (gridWalkers (run events initialState)) ->
       exists p, In (Click p (walkerColor w)) events)
    /\ (forall r, In r (gridStepsTakenSoFar (run events initialState)) ->
          exists p, In (Click p (lineColor r)) events).
Proof.
  intros events.
  set (C := fun color : string => exists p, In (Click p color) events).
  assert (Hinv : holdsOnly (fun w => C (walkerColor w)) (fun r => C (lineColor r))
                   (run events initialState)).
  { assert (Hall : Forall (fun e => forall p c, e = Click p c -> C c) events).
    { apply Forall_forall. intros e He p c ->. exists p. exact He. }
    assert (H0 : holdsOnly (fun w => C (walkerColor w)) (fun r => C (lineColor r))
                   initialState)
      by (unfold holdsOnly, initialState; simpl; repeat split; constructor).
    revert H0. generalize initialState. clearbody C.
    induction Hall as [|e events He Hall IH]; intros s Hs; simpl; [assumption|].
    apply IH. apply step_holdsOnly; auto.
    intros history random w r Hw Hr.
    destruct (walkerStep_record _ _ _ _ Hr) as (_ & _ & -> & _). assumption. }
  destruct Hinv as (_ & Hreg & _ & Hh & _ & _). rewrite Forall_forall in Hreg, Hh.
  auto.
Qed.

(** ** These properties at concrete scenarios *)

Ltac inGrid := cbv; repeat split; try reflexivity; try discriminate.

(** The completion of the second walker of the swap keeps the record of
    the first. *)
Lemma onComplete_touches_only_its_line_witness :
  In (mkGridWalkerStepInfo (mkGridIndices 0 0) (mkGridIndices 1 0) StepDir.Right "a" (Some 1))
    (gridStepsTakenSoFar
       (onComplete
          (mkGridWalkerStepInfo (mkGridIndices 1 0) (mkGridIndices 0 0) StepDir.Left "b" None)
          2 (run twoWalkersSwap initialState))).
Proof.
  apply (proj2 (onComplete_touches_only_its_line
                  (mkGridWalkerStepInfo (mkGridIndices 1 0) (mkGridIndices 0 0)
                     StepDir.Left "b" None)
                  2 (run twoWalkersSwap initialState))).
  - vm_compute. right. left. reflexivity.
  - left. discriminate.
Defined.

(** The last record of the cornered walker ends at (0,0). *)
Lemma step_destinations_inside_grid_witness :
  inGridBounds
    (stepTo (mkGridWalkerStepInfo (mkGridIndices 1 0) (mkGridIndices 0 0)
               StepDir.Left "c" (Some 3))).
Proof.
  apply (step_destinations_inside_grid walkerCornered).
  left. vm_compute. right. right. left. reflexivity.
Defined.

(** The cornered walker never left the grid. *)
Lemma walkers_stay_inside_grid_witness :
  (forall w, In w (gridWalkers (run walkerCornered initialState)) -> inGridBounds (onGridAt w))
  /\ (forall w, In w (walkersTakingNextStep (run walkerCornered initialState)) ->
        inGridBounds (onGridAt w))
  /\ (forall r, In r (gridStepsTakenSoFar (run walkerCornered initialState)) ->
        inGridBounds (stepFrom r) /\ inGridBounds (stepTo r)).
Proof.
  apply (walkers_stay_inside_grid walkerCornered).
  repeat (apply Forall_cons; [try exact I; inGrid|]). apply Forall_nil.
Defined.


(** Pause and resume of a run that has just started. *)
Lemma pause_then_resume_restores_state_witness :
  keyDownListener "R"
    (keyDownListener "P" (run [Click (mkGridIndices 2 2) "c"; KeyDown "s"] initialState))
  = run [Click (mkGridIndices 2 2) "c"; KeyDown "s"] initialState.
Proof.
  apply (pause_then_resume_restores_state [Click (mkGridIndices 2 2) "c"; KeyDown "s"] "P" "R");
    vm_compute; reflexivity.
Defined.

(** The start key, pressed while a walker is selected for removal. *)
Lemma only_reset_key_changes_walkers_and_history_witness :
  gridWalkers (keyDownListener "s" (run removalPending initialState))
  = gridWalkers (run removalPending initialState)
  /\ gridStepsTakenSoFar (keyDownListener "s" (run removalPending initialState))
     = gridStepsTakenSoFar (run removalPending initialState)
  /\ walkersFinishingSteps (keyDownListener "s" (run removalPending initialState))
     = walkersFinishingSteps (run removalPending initialState)
  /\ activeTweens (keyDownListener "s" (run removalPending initialState))
     = activeTweens (run removalPending initialState)
  /\ gridEditFocus (keyDownListener "s" (run removalPending initialState))
     = gridEditFocus (run removalPending initialState).
Proof.
  apply (only_reset_key_changes_walkers_and_history "s" (run removalPending initialState)).
  vm_compute. discriminate.
Defined.

(** The render pass of the paused run. *)
Lemma render_while_paused_changes_nothing_witness :
  step Render (run pausedMidFlight initialState) = run pausedMidFlight initialState.
Proof.
  apply (render_while_paused_changes_nothing pausedMidFlight). vm_compute. reflexivity.
Defined.

(** The start key after one walker was placed. *)
Lemma run_entered_by_start_and_left_by_reset_witness :
  isKey "s" (KeyDown "S")
  /\ instructionsState (run [Click (mkGridIndices 2 2) "c"] initialState)
     = InstructionsState.AtLeastOneExtantWalker
  /\ instructionsState (step (KeyDown "S") (run [Click (mkGridIndices 2 2) "c"] initialState))
     = InstructionsState.Running
  /\ stepping (step (KeyDown "S") (run [Click (mkGridIndices 2 2) "c"] initialState)) = true
  /\ walkersTakingNextStep
       (step (KeyDown "S") (run [Click (mkGridIndices 2 2) "c"] initialState))
     = walkersTakingNextStep (run [Click (mkGridIndices 2 2) "c"] initialState)
       ++ gridWalkers (run [Click (mkGridIndices 2 2) "c"] initialState).
Proof.
  apply (proj1 (run_entered_by_start_and_left_by_reset (KeyDown "S")
                  (run [Click (mkGridIndices 2 2) "c"] initialState))).
  - vm_compute. intros [H|H]; discriminate H.
  - vm_compute. left. reflexivity.
Defined.

(** A walker added to the empty grid and deleted again. *)
Lemma add_then_delete_walker_round_trip_witness :
  step (Click (mkGridIndices 2 2) "e")
    (step (Click (mkGridIndices 2 2) "d") (step (Click (mkGridIndices 2 2) "c") initialState))
  = mkGridState
      (if isNonEmpty (gridWalkers initialState)
       then InstructionsState.AtLeastOneExtantWalker
       else InstructionsState.NoExtantWalker)
      (gridWalkers initialState) None (gridStepsTakenSoFar initialState)
      (walkersTakingNextStep initialState) (walkersFinishingSteps initialState) None
      (stepping initialState) (activeTweens initialState).
Proof.
  apply (add_then_delete_walker_round_trip initialState (mkGridIndices 2 2) "c" "d" "e").
  - left. reflexivity.
  - reflexivity.
Defined.

(** The only walker is selected, and the selection cancelled. *)
Lemma select_then_cancel_keeps_walker_witness :
  instructionsState
    (step (Click (mkGridIndices 2 2) "d") (run [Click (mkGridIndices 2 2) "c"] initialState))
  = InstructionsState.GridWalkerRemoval
  /\ gridEditFocus
       (step (Click (mkGridIndices 2 2) "d") (run [Click (mkGridIndices 2 2) "c"] initialState))
     = Some (mkGridIndices 2 2)
  /\ step (KeyDown "Escape")
       (step (Click (mkGridIndices 2 2) "d") (run [Click (mkGridIndices 2 2) "c"] initialState))
     = setGridEditFocus (Some (mkGridIndices 2 2))
         (run [Click (mkGridIndices 2 2) "c"] initialState).
Proof.
  apply (select_then_cancel_keeps_walker [Click (mkGridIndices 2 2) "c"]
           (mkGridIndices 2 2) "d" "Escape").
  - reflexivity.
  - vm_compute. reflexivity.
  - vm_compute. discriminate.
Defined.

(** Two walkers placed, one selected. *)
Lemma no_walker_state_means_empty_registry_witness :
  instructionsState (run removalPending initialState) = InstructionsState.NoExtantWalker
  <-> gridWalkers (run removalPending initialState) = [].
Proof.
  apply (no_walker_state_means_empty_registry removalPending).
  repeat (apply Forall_cons; [otherKey|]). apply Forall_nil.
Defined.


